(** * Kolcoin SDK: request pipeline of [KolcoinApiService]

    A shallow embedding of [src/services/apiService.ts], of the helpers it
    takes from [src/utils/apiUtils.ts] and of [KolcoinSDK.dispose]
    ([src/context/KolcoinProvider.tsx]).

    Conventions of the embedding.
    - JavaScript numbers that count or stamp things (retry counters, TTLs,
      [Date.now()] readings, transfer amounts, numbers inside JSON data) are
      integers [Z]; the jittered backoff delay is a rational [Q], with the
      [Math.random()] draw passed in as an argument.
    - A [Map] keyed by strings is a [gmap string _].
    - An [async] function is cut at its [await]s: the synchronous segment
      before the network promise is awaited ([executeRequest_begin]) and the
      segment that runs once it has settled ([executeRequest_settle]).
      [executeRequest] chains the segments of one logical request; what the
      outside world contributes to attempt [k] (clock readings, exceptions,
      the settlement of the promise, the random draw) is read from an oracle.
    - Effects that leave the object (aborting a controller, issuing a fetch,
      sleeping) are appended to a trace kept in the host state, next to the
      table of interval timers.
    - Calls to the logger do not influence any value and are left out. *)

From Stdlib Require Import Ascii String QArith Qminmax Qpower Lqa.
From stdpp Require Import gmap strings list fin_maps pretty.

Open Scope Z_scope.

(* ===================================================================== *)
(** ** JSON values and [JSON.stringify] *)
(* ===================================================================== *)

(** Values that travel as [params], [body], [data] and [details].  The
    fields of an object are listed in the enumeration order of its own
    properties, which is the order [JSON.stringify] follows. *)
#[warnings="-register-all"]
Inductive JsValue : Type :=
| JUndefined
| JNull
| JBool (b : bool)
| JNumber (n : Z)
| JString (s : string)
| JArray (items : list JsValue)
| JObject (fields : list (string * JsValue)).

(** Truthiness, as used by [x || y]. *)
Definition truthy (v : JsValue) : bool :=
  match v with
  | JUndefined | JNull => false
  | JBool b => b
  | JNumber n => negb (n =? 0)
  | JString s => negb (String.eqb s "")
  | JArray _ | JObject _ => true
  end.

(** [a || b] on values. *)
Definition js_or (a b : JsValue) : JsValue := if truthy a then a else b.

Definition hex_digit (n : nat) : ascii :=
  match n with
  | 0 => "0" | 1 => "1" | 2 => "2" | 3 => "3" | 4 => "4" | 5 => "5"
  | 6 => "6" | 7 => "7" | 8 => "8" | 9 => "9" | 10 => "a" | 11 => "b"
  | 12 => "c" | 13 => "d" | 14 => "e" | _ => "f"
  end%nat%char.

Definition double_quote : ascii := "034"%char.
Definition backslash : ascii := "092"%char.

(** One character of a quoted JSON string (QuoteJSONString). *)
Definition escape_char (c : ascii) : string :=
  let n := nat_of_ascii c in
  if (n =? 34)%nat then String backslash (String double_quote EmptyString)
  else if (n =? 92)%nat then String backslash (String backslash EmptyString)
  else if (n =? 8)%nat then String backslash "b"
  else if (n =? 12)%nat then String backslash "f"
  else if (n =? 10)%nat then String backslash "n"
  else if (n =? 13)%nat then String backslash "r"
  else if (n =? 9)%nat then String backslash "t"
  else if (n <? 32)%nat then
    String backslash
      (String "u" (String "0" (String "0"
        (String (hex_digit (n / 16)) (String (hex_digit (n mod 16)) EmptyString)))))
  else String c EmptyString.

Fixpoint escape_string (s : string) : string :=
  match s with
  | EmptyString => EmptyString
  | String c rest => escape_char c +:+ escape_string rest
  end.

Definition quote (s : string) : string :=
  String double_quote (escape_string s) +:+ String double_quote EmptyString.

Fixpoint join (sep : string) (parts : list string) : string :=
  match parts with
  | [] => ""
  | [p] => p
  | p :: rest => p +:+ sep +:+ join sep rest
  end.

(** [JSON.stringify v]; [None] stands for the result [undefined].  An
    [undefined] element of an array prints as [null], an [undefined]
    property of an object is skipped. *)
Fixpoint stringify (v : JsValue) : option string :=
  match v with
  | JUndefined => None
  | JNull => Some "null"
  | JBool true => Some "true"
  | JBool false => Some "false"
  | JNumber n => Some (pretty n)
  | JString s => Some (quote s)
  | JArray items =>
      Some ("[" +:+ join "," (map (fun x => default "null" (stringify x)) items) +:+ "]")
  | JObject fields =>
      let member (kv : string * JsValue) : list string :=
        match stringify (snd kv) with
        | Some s => [quote (fst kv) +:+ ":" +:+ s]
        | None => []
        end in
      Some ("{" +:+ join "," (concat (map member fields)) +:+ "}")
  end.

(** A value inside a template literal. *)
Definition interpolate (o : option string) : string := default "undefined" o.

(* ===================================================================== *)
(** ** Types of [src/types/index.ts] *)
(* ===================================================================== *)

Inductive ApiEndpoint : Type :=
| VerificationStatusEndpoint
| WhitelistCheckEndpoint
| TokenBalanceEndpoint
| TokenTransferEndpoint
| MetricsKolEndpoint
| MetricsCommunityEndpoint.

Definition endpoint_string (e : ApiEndpoint) : string :=
  match e with
  | VerificationStatusEndpoint => "/verification/status"
  | WhitelistCheckEndpoint => "/whitelist/check"
  | TokenBalanceEndpoint => "/token/balance"
  | TokenTransferEndpoint => "/token/transfer"
  | MetricsKolEndpoint => "/metrics/kol"
  | MetricsCommunityEndpoint => "/metrics/community"
  end.

Inductive HttpMethod : Type := GET | POST | PUT | DELETE.

Definition method_string (m : HttpMethod) : string :=
  match m with
  | GET => "GET"
  | POST => "POST"
  | PUT => "PUT"
  | DELETE => "DELETE"
  end.

(** [params], [body] and [headers] are optional: an absent field reads as
    [JUndefined], respectively [None]. *)
Record ApiRequestConfig : Type := {
  endpoint : ApiEndpoint;
  method : HttpMethod;
  params : JsValue;
  body : JsValue;
  headers : option (list (string * string))
}.

Record ApiError : Type := {
  code : string;
  message : string;
  details : option JsValue
}.

Record ApiResponse : Type := {
  success : bool;
  data : option JsValue;
  error : option ApiError;
  pagination : option JsValue
}.

Record TransactionParams : Type := {
  from : string;
  to : string;
  amount : Z;
  memo : option string
}.

Inductive Environment : Type := Mainnet | Testnet | Development.

Record ApiCredentials : Type := {
  credentials_apiKey : string;
  environment : Environment
}.

(* ===================================================================== *)
(** ** [src/utils/apiUtils.ts] *)
(* ===================================================================== *)

Module ApiUtils.

Definition getApiBaseUrl (env : Environment) : string :=
  match env with
  | Mainnet => "https://api.kolcoin.xyz/v1"
  | Testnet => "https://testnet-api.kolcoin.xyz/v1"
  | Development => "https://dev-api.kolcoin.xyz/v1"
  end.

Definition maxDelay : Q := 10000%Q.

(** The jitter factor computed from one [Math.random()] draw. *)
Definition jitter_of (random : Q) : Q := (random * 0.3 + 0.85)%Q.

(** [calculateBackoff(attempt, baseDelay = 300)], with the draw of
    [Math.random()] as first argument. *)
Definition calculateBackoff (random : Q) (attempt : Z) (baseDelay : option Q) : Q :=
  let baseDelay := default 300%Q baseDelay in
  let jitter := jitter_of random in
  Qmin maxDelay (baseDelay * Qpower 2 attempt * jitter)%Q.

(** A character class given by its ranges. *)
Definition in_class (ranges : list (ascii * ascii)) (c : ascii) : bool :=
  existsb (fun r => (nat_of_ascii (fst r) <=? nat_of_ascii c)%nat
                    && (nat_of_ascii c <=? nat_of_ascii (snd r))%nat) ranges.

(** [[1-9A-HJ-NP-Za-km-z]] *)
Definition base58_class : list (ascii * ascii) :=
  [("1", "9"); ("A", "H"); ("J", "N"); ("P", "Z"); ("a", "k"); ("m", "z")]%char.

Fixpoint all_in_class (ranges : list (ascii * ascii)) (s : string) : bool :=
  match s with
  | EmptyString => true
  | String c rest => in_class ranges c && all_in_class ranges rest
  end.

(** [/^[1-9A-HJ-NP-Za-km-z]{32,44}$/.test(address)] *)
Definition isValidSolanaAddress (address : string) : bool :=
  all_in_class base58_class address
  && (32 <=? String.length address)%nat
  && (String.length address <=? 44)%nat.

End ApiUtils.

(* ===================================================================== *)
(** ** [class ApiCache] *)
(* ===================================================================== *)

Module ApiCache.

Section Cache.
Context {T : Type}.

Record Entry : Type := { data : T; expiry : Z }.

(** [set(key, data, ttlMs)] when [Date.now()] reads [now]. *)
Definition set (key : string) (value : T) (ttlMs : Z) (now : Z)
    (cache : gmap string Entry) : gmap string Entry :=
  let expiry := now + ttlMs in
  <[key := {| data := value; expiry := expiry |}]> cache.

(** [get(key)] when [Date.now()] reads [now]: the value returned ([None]
    for [null]) and the map afterwards. *)
Definition get (key : string) (now : Z) (cache : gmap string Entry)
    : option T * gmap string Entry :=
  match cache !! key with
  | None => (None, cache)
  | Some entry =>
      if now >? expiry entry then (None, delete key cache)
      else (Some (data entry), cache)
  end.

Definition delete (key : string) (cache : gmap string Entry) : gmap string Entry :=
  base.delete key cache.

Definition clear (cache : gmap string Entry) : gmap string Entry := ∅.

(** [clearExpired()] when [Date.now()] reads [now]. *)
Definition clearExpired (now : Z) (cache : gmap string Entry) : gmap string Entry :=
  filter (fun kv => ¬ (now > expiry (snd kv))) cache.

End Cache.

Arguments Entry : clear implicits.

End ApiCache.

(* ===================================================================== *)
(** ** The host: controllers, timers, and the trace of outside effects *)
(* ===================================================================== *)

(** An [AbortController], named by the rank of the
    [createCancellableFetch] call that made it.  The stored
    [cancel: () => controller.abort()] of a pending entry is this name. *)
Definition Controller : Type := nat.

Inductive Event : Type :=
| EvAbort (c : Controller)                     (* [controller.abort()] *)
| EvFetch (c : Controller) (requestId : string) (* [fetch(url, {..., signal})] *)
| EvSleep (delay : Q).                         (* [setTimeout(resolve, delay)] awaited *)

(** What a [setInterval] callback of this library does. *)
Inductive TimerCallback : Type :=
| SweepCache      (* [() => this.cache.clearExpired()] *)
| MockEvents.     (* the simulated event feed of the event service *)

Record Timer : Type := { callback : TimerCallback; interval : Z }.

Record Host : Type := {
  trace : list Event;
  nextController : Controller;
  timers : list Timer
}.

Definition emit (e : Event) (h : Host) : Host :=
  {| trace := trace h ++ [e];
     nextController := nextController h;
     timers := timers h |}.

Definition newController (h : Host) : Controller * Host :=
  (nextController h,
   {| trace := trace h;
      nextController := S (nextController h);
      timers := timers h |}).

(** [setInterval(callback, interval)]; the identifier it returns is the
    position of the timer in the table.  No caller in this library keeps
    it. *)
Definition setInterval (cb : TimerCallback) (ms : Z) (h : Host) : Host :=
  {| trace := trace h;
     nextController := nextController h;
     timers := timers h ++ [{| callback := cb; interval := ms |}] |}.

(** A value caught by [catch (error)]: what was thrown, and its [message]
    when it is an instance of [Error]. *)
Record Thrown : Type := {
  thrown_value : JsValue;
  error_message : option string
}.

(** What the outside world contributes to one invocation of
    [executeRequest]. *)
Record Attempt : Type := {
  clock_at_lookup : Z;              (* [Date.now()] inside [cache.get] *)
  prepare_throws : option Thrown;   (* an exception before the promise exists *)
  outcome : Thrown + ApiResponse;   (* the awaited promise: rejected, or fulfilled *)
  clock_at_store : Z;               (* [Date.now()] inside [cache.set] *)
  random : Q                        (* [Math.random()] inside [calculateBackoff] *)
}.

Definition Oracle : Type := nat -> Attempt.

(* ===================================================================== *)
(** ** [class KolcoinApiService] *)
(* ===================================================================== *)

Record ApiServiceOptions : Type := {
  opt_credentials : ApiCredentials;
  opt_autoRetry : option bool;
  opt_maxRetries : option Z;
  opt_cacheTime : option Z
}.

Record KolcoinApiService : Type := {
  baseUrl : string;
  apiKey : string;
  autoRetry : bool;
  maxRetries : Z;
  pendingRequests : gmap string Controller;
  cache : gmap string (ApiCache.Entry ApiResponse);
  cacheTime : Z
}.

Definition with_pending (this : KolcoinApiService) (p : gmap string Controller)
    : KolcoinApiService :=
  {| baseUrl := baseUrl this; apiKey := apiKey this;
     autoRetry := autoRetry this; maxRetries := maxRetries this;
     pendingRequests := p; cache := cache this; cacheTime := cacheTime this |}.

Definition with_cache (this : KolcoinApiService)
    (c : gmap string (ApiCache.Entry ApiResponse)) : KolcoinApiService :=
  {| baseUrl := baseUrl this; apiKey := apiKey this;
     autoRetry := autoRetry this; maxRetries := maxRetries this;
     pendingRequests := pendingRequests this; cache := c;
     cacheTime := cacheTime this |}.

(** [n || d] for an optional number: [undefined] and [0] give [d]. *)
Definition number_or (n : option Z) (d : Z) : Z :=
  match n with
  | Some v => if v =? 0 then d else v
  | None => d
  end.

(** [b !== false] for an optional boolean. *)
Definition not_false (b : option bool) : bool :=
  match b with
  | Some false => false
  | _ => true
  end.

Definition sweepInterval : Z := 60000.

Definition constructor (options : ApiServiceOptions) (h : Host)
    : KolcoinApiService * Host :=
  ({| baseUrl := ApiUtils.getApiBaseUrl (environment (opt_credentials options));
      apiKey := credentials_apiKey (opt_credentials options);
      autoRetry := not_false (opt_autoRetry options);
      maxRetries := number_or (opt_maxRetries options) 3;
      pendingRequests := ∅;
      cache := ∅;
      cacheTime := number_or (opt_cacheTime options) 60000 |},
   setInterval SweepCache sweepInterval h).

Definition createRequestId (config : ApiRequestConfig) : string :=
  method_string (method config) +:+ ":" +:+
  endpoint_string (endpoint config) +:+ ":" +:+
  interpolate (stringify (js_or (params config) (JObject []))) +:+ ":" +:+
  interpolate (stringify (js_or (body config) (JObject []))).

Record Options : Type := {
  useCache : option bool;
  bypassCache : option bool;
  retryCount : option Z
}.

Definition noOptions : Options :=
  {| useCache := None; bypassCache := None; retryCount := None |}.

(** The destructuring defaults [{ useCache = true, bypassCache = false,
    retryCount = 0 } = options]. *)
Definition useCache_of (o : Options) : bool := default true (useCache o).
Definition bypassCache_of (o : Options) : bool := default false (bypassCache o).
Definition retryCount_of (o : Options) : Z := default 0 (retryCount o).

(** The envelope built by the [catch] block. *)
Definition requestFailed (e : Thrown) : ApiResponse :=
  {| success := false;
     data := None;
     error := Some {| code := "REQUEST_FAILED";
                      message := default "Unknown error occurred" (error_message e);
                      details := Some (thrown_value e) |};
     pagination := None |}.

(** [response.error?.code?.startsWith('HTTP_5') ||
     response.error?.code === 'NETWORK_ERROR'] *)
Definition shouldRetry (response : ApiResponse) : bool :=
  match error response with
  | Some e => String.prefix "HTTP_5" (code e) || String.eqb (code e) "NETWORK_ERROR"
  | None => false
  end.

(** Where the first segment of [executeRequest] stops. *)
Inductive Begun : Type :=
| Answered (response : ApiResponse)   (* returned without awaiting the network *)
| Awaiting (requestId : string).      (* suspended on [await promise] *)

(** [executeRequest], from its entry to [await promise]. *)
Definition executeRequest_begin (a : Attempt) (config : ApiRequestConfig)
    (options : Options) (this : KolcoinApiService) (h : Host)
    : Begun * KolcoinApiService * Host :=
  let useCache := useCache_of options in
  let bypassCache := bypassCache_of options in
  let requestId := createRequestId config in
  (* Check cache if enabled and not bypassed *)
  let '(cachedData, this) :=
    if useCache && negb bypassCache then
      let '(found, c) := ApiCache.get requestId (clock_at_lookup a) (cache this) in
      (found, with_cache this c)
    else (None, this) in
  match cachedData with
  | Some cachedData => (Answered cachedData, this, h)
  | None =>
      (* Cancel any pending duplicate requests *)
      let '(this, h) :=
        match pendingRequests this !! requestId with
        | Some cancel =>
            (with_pending this (delete requestId (pendingRequests this)),
             emit (EvAbort cancel) h)
        | None => (this, h)
        end in
      match prepare_throws a with
      | Some e =>
          (* catch: remove from pending requests, answer REQUEST_FAILED *)
          (Answered (requestFailed e),
           with_pending this (delete requestId (pendingRequests this)), h)
      | None =>
          let '(cancel, h) := newController h in
          let h := emit (EvFetch cancel requestId) h in
          (* Store the cancel function *)
          (Awaiting requestId,
           with_pending this (<[requestId := cancel]> (pendingRequests this)), h)
      end
  end.

(** Where the second segment stops. *)
Inductive Settled : Type :=
| Returned (response : ApiResponse)
| Retrying (delay : Q) (options : Options).  (* about to sleep, then recurse *)

(** [executeRequest], from the settlement of the awaited promise to its
    [return] or to the backoff sleep that precedes the recursive call. *)
Definition executeRequest_settle (a : Attempt) (config : ApiRequestConfig)
    (options : Options) (this : KolcoinApiService) (h : Host)
    : Settled * KolcoinApiService * Host :=
  let useCache := useCache_of options in
  let retryCount := retryCount_of options in
  let requestId := createRequestId config in
  match outcome a with
  | inl e =>
      (Returned (requestFailed e),
       with_pending this (delete requestId (pendingRequests this)), h)
  | inr response =>
      (* Remove from pending requests *)
      let this := with_pending this (delete requestId (pendingRequests this)) in
      (* Handle server errors with retries *)
      if negb (success response) && autoRetry this && (retryCount <? maxRetries this)
         && shouldRetry response
      then
        let delay := ApiUtils.calculateBackoff (random a) retryCount None in
        (Retrying delay {| useCache := Some useCache;
                           bypassCache := Some true;
                           retryCount := Some (retryCount + 1) |},
         this, h)
      else
        (* Cache successful responses *)
        let this :=
          if success response && useCache then
            with_cache this
              (ApiCache.set requestId response (cacheTime this) (clock_at_store a)
                 (cache this))
          else this in
        (Returned response, this, h)
  end.

(** One logical request: the segments chained, attempt [k] reading the
    oracle at [k].  The recursion of the source is bounded by [fuel]. *)
Fixpoint executeRequest_fuel (fuel : nat) (w : Oracle) (k : nat)
    (config : ApiRequestConfig) (options : Options)
    (this : KolcoinApiService) (h : Host)
    : option (ApiResponse * KolcoinApiService * Host) :=
  match fuel with
  | O => None
  | S fuel =>
      match executeRequest_begin (w k) config options this h with
      | (Answered response, this, h) => Some (response, this, h)
      | (Awaiting _, this, h) =>
          match executeRequest_settle (w k) config options this h with
          | (Returned response, this, h) => Some (response, this, h)
          | (Retrying delay options, this, h) =>
              executeRequest_fuel fuel w (S k) config options this
                (emit (EvSleep delay) h)
          end
      end
  end.

(** Fuel that always suffices: one attempt, plus one per retry still
    allowed. *)
Definition enough_fuel (this : KolcoinApiService) (options : Options) : nat :=
  S (Z.to_nat (maxRetries this - retryCount_of options)).

Definition executeRequest (w : Oracle) (config : ApiRequestConfig)
    (options : Options) (this : KolcoinApiService) (h : Host)
    : option (ApiResponse * KolcoinApiService * Host) :=
  executeRequest_fuel (enough_fuel this options) w 0%nat config options this h.

(** [cancelAllRequests()].  The source aborts the entries in the insertion
    order of the [Map]; here they are taken in the order of [map_to_list]. *)
Definition cancelAllRequests (this : KolcoinApiService) (h : Host)
    : KolcoinApiService * Host :=
  (with_pending this ∅,
   foldl (fun h entry => emit (EvAbort (snd entry)) h) h
         (map_to_list (pendingRequests this))).

Definition invalidWallet (msg : string) : ApiResponse :=
  {| success := false;
     data := None;
     error := Some {| code := "INVALID_WALLET"; message := msg; details := None |};
     pagination := None |}.

Definition invalidAmount : ApiResponse :=
  {| success := false;
     data := None;
     error := Some {| code := "INVALID_AMOUNT";
                      message := "Transfer amount must be greater than zero";
                      details := None |};
     pagination := None |}.

Definition checkVerificationStatus (w : Oracle) (wallet : string)
    (this : KolcoinApiService) (h : Host)
    : option (ApiResponse * KolcoinApiService * Host) :=
  if negb (ApiUtils.isValidSolanaAddress wallet) then
    Some (invalidWallet "The provided wallet address is invalid", this, h)
  else
    executeRequest w
      {| endpoint := VerificationStatusEndpoint;
         method := GET;
         params := JObject [("wallet", JString wallet)];
         body := JUndefined;
         headers := None |}
      noOptions this h.

Definition checkWhitelistStatus (w : Oracle) (walletAddress : string)
    (this : KolcoinApiService) (h : Host)
    : option (ApiResponse * KolcoinApiService * Host) :=
  if negb (ApiUtils.isValidSolanaAddress walletAddress) then
    Some (invalidWallet "The provided wallet address is invalid", this, h)
  else
    executeRequest w
      {| endpoint := WhitelistCheckEndpoint;
         method := POST;
         params := JUndefined;
         body := JObject [("walletAddress", JString walletAddress)];
         headers := None |}
      noOptions this h.

Definition getKolMetrics (w : Oracle) (wallet : string)
    (this : KolcoinApiService) (h : Host)
    : option (ApiResponse * KolcoinApiService * Host) :=
  if negb (ApiUtils.isValidSolanaAddress wallet) then
    Some (invalidWallet "The provided wallet address is invalid", this, h)
  else
    executeRequest w
      {| endpoint := MetricsKolEndpoint;
         method := GET;
         params := JObject [("wallet", JString wallet)];
         body := JUndefined;
         headers := None |}
      noOptions this h.

(** The transfer parameters as the object that is sent as [body]. *)
Definition transactionBody (p : TransactionParams) : JsValue :=
  JObject ([("from", JString (from p)); ("to", JString (to p));
            ("amount", JNumber (amount p))]
           ++ match memo p with
              | Some m => [("memo", JString m)]
              | None => []
              end).

Definition transferTokens (w : Oracle) (p : TransactionParams)
    (this : KolcoinApiService) (h : Host)
    : option (ApiResponse * KolcoinApiService * Host) :=
  if negb (ApiUtils.isValidSolanaAddress (from p))
     || negb (ApiUtils.isValidSolanaAddress (to p)) then
    Some (invalidWallet "One or more wallet addresses are invalid", this, h)
  else if amount p <=? 0 then
    Some (invalidAmount, this, h)
  else
    executeRequest w
      {| endpoint := TokenTransferEndpoint;
         method := POST;
         params := JUndefined;
         body := transactionBody p;
         headers := None |}
      (* Don't cache transaction requests *)
      {| useCache := Some false; bypassCache := None; retryCount := None |}
      this h.

(** The runs of one logical request, as a relation: what
    [executeRequest_fuel] computes when it is given fuel enough. *)
Inductive run (w : Oracle) (config : ApiRequestConfig)
  : nat -> Options -> KolcoinApiService -> Host
    -> ApiResponse -> KolcoinApiService -> Host -> Prop :=
| run_answered k options this h response this1 h1 :
    executeRequest_begin (w k) config options this h = (Answered response, this1, h1) ->
    run w config k options this h response this1 h1
| run_returned k options this h requestId this1 h1 response this2 h2 :
    executeRequest_begin (w k) config options this h = (Awaiting requestId, this1, h1) ->
    executeRequest_settle (w k) config options this1 h1 = (Returned response, this2, h2) ->
    run w config k options this h response this2 h2
| run_retried k options this h requestId this1 h1 delay options' this2 h2
              response this3 h3 :
    executeRequest_begin (w k) config options this h = (Awaiting requestId, this1, h1) ->
    executeRequest_settle (w k) config options this1 h1
      = (Retrying delay options', this2, h2) ->
    run w config (S k) options' this2 (emit (EvSleep delay) h2) response this3 h3 ->
    run w config k options this h response this3 h3.

Definition is_sleep (e : Event) : bool :=
  match e with
  | EvSleep _ => true
  | _ => false
  end.

Definition is_fetch (e : Event) : bool :=
  match e with
  | EvFetch _ _ => true
  | _ => false
  end.

(** The retries in a stretch of trace: one backoff sleep precedes each. *)
Definition retries (events : list Event) : nat :=
  length (List.filter is_sleep events).

(** The network calls in a stretch of trace. *)
Definition fetches (events : list Event) : nat :=
  length (List.filter is_fetch events).

(** The error code is one the executor treats as transient. *)
Definition transient (response : ApiResponse) : Prop :=
  exists e, error response = Some e
            /\ (String.prefix "HTTP_5" (code e) = true \/ code e = "NETWORK_ERROR").

(* ===================================================================== *)
(** ** [class KolcoinSDK]: construction and [dispose] *)
(* ===================================================================== *)

(** Of the event service, the listener table ([Map<EventType, Set<...>>],
    callbacks named by numbers) and the timer of its simulated feed. *)
Record KolcoinEventService : Type := {
  listeners : gmap string (gset nat)
}.



(** [removeAllListeners(eventType?)] *)
Definition removeAllListeners (eventType : option string) (ev : KolcoinEventService)
    : KolcoinEventService :=
  match eventType with
  | Some t =>
      if String.eqb t "" then {| listeners := ∅ |}
      else {| listeners := delete t (listeners ev) |}
  | None => {| listeners := ∅ |}
  end.


Record KolcoinSDK : Type := {
  apiService : KolcoinApiService;
  eventService : KolcoinEventService
}.


(** [dispose()] *)
Definition dispose (sdk : KolcoinSDK) (h : Host) : KolcoinSDK * Host :=
  (* Cancel any pending API requests *)
  let '(api, h) := cancelAllRequests (apiService sdk) h in
  (* Remove all event listeners *)
  let ev := removeAllListeners None (eventService sdk) in
  ({| apiService := api; eventService := ev |}, h).




Definition emptyHost : Host :=
  {| trace := []; nextController := 0%nat; timers := [] |}.

(* ===================================================================== *)
(** ** More of [KolcoinApiService] and of the SDK modules over it *)
(* ===================================================================== *)

(** [invalidateCache(pattern?)]; a [RegExp] is given by its source text. *)
Definition invalidateCache (pattern : option string) (this : KolcoinApiService)
    : KolcoinApiService :=
  match pattern with
  | None => with_cache this (ApiCache.clear (cache this))
  | Some _ =>
      (* Pattern-based cache invalidation not implemented *)
      with_cache this (ApiCache.clear (cache this))
  end.

(** [VerificationModule.checkStatus] *)
Definition VerificationModule_checkStatus (w : Oracle) (wallet : string)
    (this : KolcoinApiService) (h : Host)
    : option (ApiResponse * KolcoinApiService * Host) :=
  if negb (ApiUtils.isValidSolanaAddress wallet) then
    Some (invalidWallet "The provided wallet address is invalid", this, h)
  else checkVerificationStatus w wallet this h.

(** [WhitelistModule.checkStatus] *)
Definition WhitelistModule_checkStatus (w : Oracle) (wallet : string)
    (this : KolcoinApiService) (h : Host)
    : option (ApiResponse * KolcoinApiService * Host) :=
  if negb (ApiUtils.isValidSolanaAddress wallet) then
    Some (invalidWallet "The provided wallet address is invalid", this, h)
  else checkWhitelistStatus w wallet this h.

(* ===================================================================== *)
(** ** URLs and headers ([src/utils/apiUtils.ts])

    A character of a string stands for one UTF-16 code unit in the range
    0 to 255. *)
(* ===================================================================== *)

Module Url.

(** [String(v)], the conversion [encodeURIComponent] applies to its
    argument. *)
Fixpoint toString (v : JsValue) : string :=
  match v with
  | JUndefined => "undefined"
  | JNull => "null"
  | JBool true => "true"
  | JBool false => "false"
  | JNumber n => pretty n
  | JString s => s
  | JArray items =>
      join "," (map (fun x => match x with
                              | JUndefined | JNull => ""
                              | _ => toString x
                              end) items)
  | JObject _ => "[object Object]"
  end.

Definition between (lo hi n : nat) : bool := ((lo <=? n) && (n <=? hi))%nat.

(** The characters [encodeURIComponent] leaves alone:
    [A-Z a-z 0-9 - _ . ! ~ * ' ( )]. *)
Definition is_unreserved (c : ascii) : bool :=
  let n := nat_of_ascii c in
  between 65 90 n || between 97 122 n || between 48 57 n
  || existsb (Nat.eqb n) [45; 95; 46; 33; 126; 42; 39; 40; 41]%nat.

Definition hex_upper (n : nat) : ascii :=
  match n with
  | 0 => "0" | 1 => "1" | 2 => "2" | 3 => "3" | 4 => "4" | 5 => "5"
  | 6 => "6" | 7 => "7" | 8 => "8" | 9 => "9" | 10 => "A" | 11 => "B"
  | 12 => "C" | 13 => "D" | 14 => "E" | _ => "F"
  end%nat%char.

(** One byte as [%XX]. *)
Definition percent (byte : nat) : string :=
  String "%" (String (hex_upper (byte / 16)) (String (hex_upper (byte mod 16)) EmptyString)).

(** One code unit: kept, or the percent-escapes of its UTF-8 bytes (one
    byte below 128, two from 128 to 255). *)
Definition encode_char (c : ascii) : string :=
  let n := nat_of_ascii c in
  if is_unreserved c then String c EmptyString
  else if (n <? 128)%nat then percent n
  else percent (192 + n / 64) +:+ percent (128 + n mod 64).

Fixpoint encodeURIComponent (s : string) : string :=
  match s with
  | EmptyString => EmptyString
  | String c rest => encode_char c +:+ encodeURIComponent rest
  end.

(** One entry of the parameter object, as it appears in the query. *)
Definition query_part (kv : string * JsValue) : string :=
  let key := fst kv in
  match snd kv with
  | JArray vs =>
      (* Handle arrays *)
      join "&" (map (fun v => encodeURIComponent key +:+ "[]="
                              +:+ encodeURIComponent (toString v)) vs)
  | JObject fields =>
      (* Handle objects *)
      encodeURIComponent key +:+ "="
      +:+ encodeURIComponent (interpolate (stringify (JObject fields)))
  | value =>
      (* Handle primitive values *)
      encodeURIComponent key +:+ "=" +:+ encodeURIComponent (toString value)
  end.

Definition is_present (kv : string * JsValue) : bool :=
  match snd kv with
  | JUndefined | JNull => false
  | _ => true
  end.

(** [formatQueryParams(params)], the object given by its entries. *)
Definition formatQueryParams (params : list (string * JsValue)) : string :=
  if (length params =? 0)%nat then ""
  else
    let validParams := join "&" (map query_part (List.filter is_present params)) in
    "?" +:+ validParams.

(** [buildApiUrl(baseUrl, endpoint, params?)] *)
Definition buildApiUrl (baseUrl : string) (endpoint : ApiEndpoint)
    (params : option (list (string * JsValue))) : string :=
  let queryString := match params with
                     | Some p => formatQueryParams p
                     | None => ""
                     end in
  baseUrl +:+ endpoint_string endpoint +:+ queryString.

(** [createAuthHeaders(apiKey, additionalHeaders = {})]; [browser] tells
    whether [window] is defined. *)
Definition createAuthHeaders (browser : bool) (apiKey : string)
    (additionalHeaders : option (gmap string string)) : gmap string string :=
  default ∅ additionalHeaders
  ∪ <["Authorization" := "Bearer " +:+ apiKey]>
      (<["Content-Type" := "application/json"]>
        (<["Accept" := "application/json"]>
          (<["X-Client-Version" := "1.0.0"]>
            {[ "X-Client-Platform" := if browser then "browser" else "node" ]}))).

(** [[a-zA-Z0-9_-]] *)
Definition is_path_safe (c : ascii) : bool :=
  let n := nat_of_ascii c in
  between 97 122 n || between 65 90 n || between 48 57 n
  || (n =? 95)%nat || (n =? 45)%nat.

(** [segment.replace(/[^a-zA-Z0-9_-]/g, '_')] *)
Fixpoint sanitizePathSegment (segment : string) : string :=
  match segment with
  | EmptyString => EmptyString
  | String c rest =>
      String (if is_path_safe c then c else "_"%char) (sanitizePathSegment rest)
  end.

(** The URL [executeRequest] builds for a request whose [params] is a
    record or absent. *)
Definition requestUrl (this : KolcoinApiService) (config : ApiRequestConfig) : string :=
  buildApiUrl (baseUrl this) (endpoint config)
    (match params config with
     | JObject fields => Some fields
     | _ => None
     end).

End Url.

(* ===================================================================== *)
(** ** From a fetch to an envelope ([src/utils/apiUtils.ts]) *)
(* ===================================================================== *)

Module Fetch.

(** What [errorData.code], [errorData.message] and [errorData.details]
    read, for the value [error.response.json()] returned. *)
Record ErrorData : Type := {
  ed_code : option string;
  ed_message : option string;
  ed_details : JsValue
}.

(** A pending [Promise] has none of the three properties. *)
Definition promiseData : ErrorData :=
  {| ed_code := None; ed_message := None; ed_details := JUndefined |}.

Inductive JsonCall : Type :=
| JsonReturns (d : ErrorData)
| JsonThrows.

Record ErrorResponse : Type := {
  er_status : Z;
  er_statusText : string;
  er_json : JsonCall       (* the call [error.response.json()] *)
}.

(** A caught error object, by what the handlers read of it. *)
Record ErrorValue : Type := {
  instanceof_TypeError : bool;
  err_name : option string;
  err_message : option string;
  err_response : option ErrorResponse;
  err_value : JsValue
}.

(** [s || d] for an optional string. *)
Definition string_or (s : option string) (d : string) : string :=
  match s with
  | Some v => if String.eqb v "" then d else v
  | None => d
  end.

Definition http_code (status : Z) : string := "HTTP_" +:+ pretty status.

Definition handleApiError (e : ErrorValue) : ApiResponse :=
  (* Network errors *)
  if instanceof_TypeError e
     && match err_message e with
        | Some m => String.eqb m "Failed to fetch"
        | None => false
        end
  then
    {| success := false; data := None;
       error := Some {| code := "NETWORK_ERROR";
                        message := "Unable to connect to the Kolcoin API. Please check your internet connection.";
                        details := None |};
       pagination := None |}
  else
    match err_response e with
    | Some r =>
        (* Parse API errors *)
        match er_json r with
        | JsonReturns errorData =>
            {| success := false; data := None;
               error := Some {| code := string_or (ed_code errorData)
                                          (http_code (er_status r));
                                message := string_or (ed_message errorData)
                                             "An error occurred while communicating with the Kolcoin API";
                                details := Some (js_or (ed_details errorData) JNull) |};
               pagination := None |}
        | JsonThrows =>
            {| success := false; data := None;
               error := Some {| code := http_code (er_status r);
                                message := string_or (Some (er_statusText r))
                                             "Unknown API error";
                                details := None |};
               pagination := None |}
        end
    | None =>
        (* Fallback for other errors *)
        {| success := false; data := None;
           error := Some {| code := "UNKNOWN_ERROR";
                            message := string_or (err_message e)
                                         "An unknown error occurred";
                            details := Some (err_value e) |};
           pagination := None |}
    end.

(** A [Response] of the Fetch API: [json] is what awaiting
    [response.json()] gives, a thrown error or the parsed body. *)
Record HttpResponse : Type := {
  ok : bool;
  status : Z;
  statusText : string;
  json : Thrown + JsValue
}.

(** [data.pagination] for a parsed body that is not [null]. *)
Definition pagination_of (parsed : JsValue) : option JsValue :=
  match parsed with
  | JObject fields =>
      match List.find (fun kv => String.eqb (fst kv) "pagination") fields with
      | Some (_, JUndefined) => None
      | Some (_, v) => Some v
      | None => None
      end
  | _ => None
  end.

Definition parseError (detail : JsValue) : ApiResponse :=
  {| success := false; data := None;
     error := Some {| code := "PARSE_ERROR";
                      message := "Failed to parse API response";
                      details := Some detail |};
     pagination := None |}.

(** [parseApiResponse(response)].  [typeError] is the error the engine
    throws when a property of [null] is read. *)
Definition parseApiResponse (typeError : JsValue) (response : HttpResponse)
    : ApiResponse :=
  if negb (ok response) then
    handleApiError
      {| instanceof_TypeError := false;
         err_name := None;
         err_message := None;
         err_response := Some {| er_status := status response;
                                 er_statusText := statusText response;
                                 er_json := JsonReturns promiseData |};
         err_value := JUndefined |}
  else
    match json response with
    | inr parsed =>
        match parsed with
        | JNull | JUndefined => parseError typeError
        | _ => {| success := true; data := Some parsed; error := None;
                  pagination := pagination_of parsed |}
        end
    | inl e => parseError (thrown_value e)
    end.

Inductive FetchOutcome : Type :=
| Responds (r : HttpResponse)   (* [fetch] fulfilled *)
| Rejects (e : ErrorValue).     (* [fetch] rejected *)

Definition requestCancelled : ApiResponse :=
  {| success := false; data := None;
     error := Some {| code := "REQUEST_CANCELLED";
                      message := "The request was cancelled";
                      details := None |};
     pagination := None |}.

(** The value the promise of [createCancellableFetch] is fulfilled with. *)
Definition createCancellableFetch (typeError : JsValue) (o : FetchOutcome)
    : ApiResponse :=
  match o with
  | Responds r => parseApiResponse typeError r
  | Rejects e =>
      if match err_name e with
         | Some n => String.eqb n "AbortError"
         | None => false
         end
      then requestCancelled
      else handleApiError e
  end.

(** The attempt of [executeRequest] whose fetch ends as [o]. *)
Definition attempt (typeError : JsValue) (o : FetchOutcome) (lookup store : Z)
    (draw : Q) : Attempt :=
  {| clock_at_lookup := lookup;
     prepare_throws := None;
     outcome := inr (createCancellableFetch typeError o);
     clock_at_store := store;
     random := draw |}.

End Fetch.

(* ===================================================================== *)
(** ** [class KolcoinEventService], without [localStorage]
    ([useLocalStorage] is [false] wherever [window] is undefined) *)
(* ===================================================================== *)

Module Events.

Record HistoryEntry : Type := { timestamp : Z; payload : JsValue }.

Definition historyLimit : nat := 50.

(** [addToEventHistory(eventType, data)] when [Date.now()] reads [now]. *)
Definition addToEventHistory (eventType : string) (value : JsValue) (now : Z)
    (eventHistory : gmap string (list HistoryEntry))
    : gmap string (list HistoryEntry) :=
  let events := default [] (eventHistory !! eventType) in
  let entry := {| timestamp := now; payload := value |} in
  (* Add to start for most recent first *)
  let events := entry :: events in
  (* Limit the history size *)
  let events := if (historyLimit <? length events)%nat
                then take historyLimit events else events in
  <[eventType := events]> eventHistory.

Definition getEventHistory (eventType : string)
    (eventHistory : gmap string (list HistoryEntry)) : list HistoryEntry :=
  default [] (eventHistory !! eventType).

Definition clearEventHistory (eventType : option string)
    (eventHistory : gmap string (list HistoryEntry))
    : gmap string (list HistoryEntry) :=
  match eventType with
  | Some t => if String.eqb t "" then ∅ else delete t eventHistory
  | None => ∅
  end.

(** [on(eventType, callback)]; the function it returns is
    [off eventType callback]. *)
Definition on (eventType : string) (cb : nat) (ev : KolcoinEventService)
    : KolcoinEventService :=
  let typeListeners := default ∅ (listeners ev !! eventType) in
  {| listeners := <[eventType := typeListeners ∪ {[ cb ]}]> (listeners ev) |}.

(** [off(eventType, callback)] *)
Definition off (eventType : string) (cb : nat) (ev : KolcoinEventService)
    : KolcoinEventService :=
  match listeners ev !! eventType with
  | None => ev
  | Some typeListeners =>
      let typeListeners := typeListeners ∖ {[ cb ]} in
      if (size typeListeners =? 0)%nat
      then {| listeners := delete eventType (listeners ev) |}
      else {| listeners := <[eventType := typeListeners]> (listeners ev) |}
  end.

(** [notifyListeners(eventType, data)]: the callbacks that are called.  An
    exception of a callback is caught, the loop goes on.  The source calls
    them in insertion order; here they come in the order of [elements]. *)
Definition notifyListeners (eventType : string) (ev : KolcoinEventService) : list nat :=
  match listeners ev !! eventType with
  | None => []
  | Some typeListeners => elements typeListeners
  end.

(** [emit(eventType, data)]: the history afterwards and the callbacks
    called. *)
Definition emit (eventType : string) (value : JsValue) (now : Z)
    (ev : KolcoinEventService) (eventHistory : gmap string (list HistoryEntry))
    : gmap string (list HistoryEntry) * list nat :=
  (addToEventHistory eventType value now eventHistory,
   notifyListeners eventType ev).

End Events.

(* ===================================================================== *)
(** ** [class Logger] ([src/utils/logger.ts])

    The formatter only shapes the text printed on the console and is left
    out; [createChild] is not modelled. *)
(* ===================================================================== *)

Module Logger.

Inductive LogLevel : Type := ERROR | WARN | INFO | DEBUG.

Definition level_value (l : LogLevel) : Z :=
  match l with
  | ERROR => 0
  | WARN => 1
  | INFO => 2
  | DEBUG => 3
  end.

(** [SdkConfig['logLevel']] *)
Inductive LevelName : Type := error_level | warn_level | info_level | debug_level.

Definition LOG_LEVEL_MAP (n : LevelName) : LogLevel :=
  match n with
  | error_level => ERROR
  | warn_level => WARN
  | info_level => INFO
  | debug_level => DEBUG
  end.

(** [LOG_LEVEL_MAP[level || 'info'] || LogLevel.INFO] *)
Definition resolveLevel (level : option LevelName) : LogLevel :=
  let l := LOG_LEVEL_MAP (default info_level level) in
  if level_value l =? 0 then INFO else l.

Record LogEvent : Type := {
  ev_timestamp : string;
  ev_level : LogLevel;
  ev_message : string;
  ev_context : gmap string JsValue
}.

Record LoggerOptions : Type := {
  opt_level : option LevelName;
  opt_historyLimit : option Z;
  opt_context : option (gmap string JsValue);
  opt_enableConsole : option bool
}.

Record Logger : Type := {
  level : LogLevel;
  history : list LogEvent;
  historyLimit : Z;
  context : gmap string JsValue;
  enableConsole : bool;
  log_listeners : list nat
}.

Definition new (options : LoggerOptions) : Logger :=
  {| level := resolveLevel (opt_level options);
     history := [];
     historyLimit := number_or (opt_historyLimit options) 100;
     context := default ∅ (opt_context options);
     enableConsole := not_false (opt_enableConsole options);
     log_listeners := [] |}.

Definition setLevel (l : option LevelName) (lg : Logger) : Logger :=
  {| level := resolveLevel l;
     history := history lg;
     historyLimit := historyLimit lg;
     context := context lg;
     enableConsole := enableConsole lg;
     log_listeners := log_listeners lg |}.

(** What a call of [log] does outside the logger. *)
Inductive Output : Type :=
| Console (l : LogLevel) (e : LogEvent)   (* [console.error], [.warn], [.info] or [.debug] *)
| Notified (listener : nat) (e : LogEvent).

(** [log(level, message, context?)] when [new Date().toISOString()] is
    [now]. *)
Definition log (l : LogLevel) (msg : string) (ctx : option (gmap string JsValue))
    (now : string) (lg : Logger) : Logger * list Output :=
  if level_value l >? level_value (level lg) then (lg, [])
  else
    let event := {| ev_timestamp := now; ev_level := l; ev_message := msg;
                    ev_context := default ∅ ctx ∪ context lg |} in
    (* Add to history with limit *)
    let pushed := history lg ++ [event] in
    let kept := if Z.of_nat (length pushed) >? historyLimit lg
                then tail pushed else pushed in
    ({| level := level lg;
        history := kept;
        historyLimit := historyLimit lg;
        context := context lg;
        enableConsole := enableConsole lg;
        log_listeners := log_listeners lg |},
     (if enableConsole lg then [Console l event] else [])
     ++ map (fun listener => Notified listener event) (log_listeners lg)).

Definition addListener (listener : nat) (lg : Logger) : Logger :=
  {| level := level lg;
     history := history lg;
     historyLimit := historyLimit lg;
     context := context lg;
     enableConsole := enableConsole lg;
     log_listeners := log_listeners lg ++ [listener] |}.

End Logger.

(* ===================================================================== *)
(** ** The requests of the read methods, and predicates on strings *)
(* ===================================================================== *)

(** The config [checkVerificationStatus] passes to the executor. *)
Definition verificationRequest (wallet : string) : ApiRequestConfig :=
  {| endpoint := VerificationStatusEndpoint;
     method := GET;
     params := JObject [("wallet", JString wallet)];
     body := JUndefined;
     headers := None |}.

(** The config [checkWhitelistStatus] passes to the executor. *)
Definition whitelistRequest (walletAddress : string) : ApiRequestConfig :=
  {| endpoint := WhitelistCheckEndpoint;
     method := POST;
     params := JUndefined;
     body := JObject [("walletAddress", JString walletAddress)];
     headers := None |}.

(** The config [getKolMetrics] passes to the executor. *)
Definition metricsRequest (wallet : string) : ApiRequestConfig :=
  {| endpoint := MetricsKolEndpoint;
     method := GET;
     params := JObject [("wallet", JString wallet)];
     body := JUndefined;
     headers := None |}.

(** Every character of [s] satisfies [p]. *)
Fixpoint string_forall (p : ascii -> bool) (s : string) : bool :=
  match s with
  | EmptyString => true
  | String c rest => p c && string_forall p rest
  end.


(* ===================================================================== *)
(** ** Sample inputs, used to run the model *)
(* ===================================================================== *)

Definition sampleOptions : ApiServiceOptions :=
  {| opt_credentials := {| credentials_apiKey := "test-key"; environment := Testnet |};
     opt_autoRetry := None;
     opt_maxRetries := None;
     opt_cacheTime := None |}.

Definition sampleService : KolcoinApiService := fst (constructor sampleOptions emptyHost).

Definition sampleHost : Host := snd (constructor sampleOptions emptyHost).

Definition sampleWallet : string := "11111111111111111111111111111111".

Definition statusRequest : ApiRequestConfig :=
  {| endpoint := VerificationStatusEndpoint;
     method := GET;
     params := JObject [("wallet", JString sampleWallet)];
     body := JUndefined;
     headers := None |}.

Definition errorEnvelope (c : string) : ApiResponse :=
  {| success := false;
     data := None;
     error := Some {| code := c; message := "failed"; details := None |};
     pagination := None |}.

Definition successEnvelope (v : JsValue) : ApiResponse :=
  {| success := true; data := Some v; error := None; pagination := None |}.

(** An attempt whose promise is fulfilled with [response]. *)
Definition answering (response : ApiResponse) : Attempt :=
  {| clock_at_lookup := 1000;
     prepare_throws := None;
     outcome := inr response;
     clock_at_store := 1200;
     random := 0.5%Q |}.

(** The backend answers every attempt with the same envelope. *)
Definition alwaysAnswering (response : ApiResponse) : Oracle :=
  fun _ => answering response.

Definition sampleTransfer (n : Z) : TransactionParams :=
  {| from := "11111111111111111111111111111111";
     to := "22222222222222222222222222222222";
     amount := n;
     memo := None |}.


(* ===================================================================== *)
(** * Properties *)
(* ===================================================================== *)

(** ** Request keys *)

Example createRequestId_no_payload :
  createRequestId {| endpoint := MetricsKolEndpoint; method := GET;
                     params := JUndefined; body := JNull; headers := None |}
  = "GET:/metrics/kol:{}:{}".
Proof. reflexivity. Qed.

Example createRequestId_array_body :
  createRequestId {| endpoint := WhitelistCheckEndpoint; method := POST;
                     params := JObject [];
                     body := JArray [JNumber (-7); JUndefined; JBool true; JNull];
                     headers := Some [("X-Trace", "1")] |}
  = "POST:/whitelist/check:{}:[-7,null,true,null]".
Proof. reflexivity. Qed.

(** Objects are compared with their properties in enumeration order: the
    same properties listed in another order are another value, and get
    another id. *)
Example createRequestId_follows_property_order :
  createRequestId {| endpoint := MetricsKolEndpoint; method := GET;
                     params := JObject [("a", JNumber 1); ("b", JNumber 2)];
                     body := JUndefined; headers := None |}
  <> createRequestId {| endpoint := MetricsKolEndpoint; method := GET;
                        params := JObject [("b", JNumber 2); ("a", JNumber 1)];
                        body := JUndefined; headers := None |}.
Proof. discriminate. Qed.



(** ** The cache *)

Lemma get_fresh {T : Type} (key : string) (e : ApiCache.Entry T) (t : Z)
    (c : gmap string (ApiCache.Entry T)) :
  c !! key = Some e ->
  ApiCache.get key t c
  = if t <=? ApiCache.expiry e then (Some (ApiCache.data e), c)
    else (None, delete key c).
Proof.
  intros Hl. unfold ApiCache.get. rewrite Hl, Z.gtb_ltb.
  destruct (Z.ltb_spec (ApiCache.expiry e) t), (Z.leb_spec t (ApiCache.expiry e));
    (reflexivity || lia).
Qed.

Lemma get_absent {T : Type} (key : string) (t : Z) (c : gmap string (ApiCache.Entry T)) :
  c !! key = None -> ApiCache.get key t c = (None, c).
Proof. intros Hl. unfold ApiCache.get. now rewrite Hl. Qed.

(** C3. After [set(key, value, ttl)] at time [now] the entry of [key] is
    [value] with expiry [now + ttl], whatever was stored under [key] before;
    a following [get(key)] at time [t] returns [value] and leaves the cache
    alone when [t <= now + ttl], and otherwise returns nothing and deletes
    the entry.  One millisecond before the expiry the value comes back, one
    millisecond after it the entry is gone. *)
Theorem cache_set_then_get {T : Type} (c : gmap string (ApiCache.Entry T))
    (key : string) (value : T) (ttl now t : Z) :
  let c' := ApiCache.set key value ttl now c in
  c' !! key = Some {| ApiCache.data := value; ApiCache.expiry := now + ttl |}
  /\ (forall value0 ttl0 now0,
        ApiCache.set key value ttl now (ApiCache.set key value0 ttl0 now0 c) = c')
  /\ ApiCache.get key t c'
     = (if t <=? now + ttl then (Some value, c') else (None, delete key c'))
  /\ ApiCache.get key (now + ttl - 1) c' = (Some value, c')
  /\ ApiCache.get key (now + ttl + 1) c' = (None, delete key c')
  /\ delete key c' !! key = None.
Proof.
  intros c'.
  assert (Hl : c' !! key
               = Some {| ApiCache.data := value; ApiCache.expiry := now + ttl |})
    by apply lookup_insert_eq.
  split; [exact Hl|]. split.
  { intros. unfold c', ApiCache.set. apply insert_insert_eq. }
  split; [apply (get_fresh _ _ _ _ Hl)|]. split.
  { rewrite (get_fresh _ _ _ _ Hl). simpl.
    destruct (Z.leb_spec (now + ttl - 1) (now + ttl)); [reflexivity | lia]. }
  split.
  { rewrite (get_fresh _ _ _ _ Hl). simpl.
    destruct (Z.leb_spec (now + ttl + 1) (now + ttl)); [lia | reflexivity]. }
  apply lookup_delete_eq.
Qed.

(** ** The backoff calculator *)


Example backoff_third_retry : (ApiUtils.calculateBackoff 0.5 3 None == 2400)%Q.
Proof. reflexivity. Qed.

Example backoff_capped : ApiUtils.calculateBackoff 0 6 None = 10000%Q.
Proof. reflexivity. Qed.



(** ** The executor, segment by segment *)

Lemma with_cache_same (this : KolcoinApiService) : with_cache this (cache this) = this.
Proof. now destruct this. Qed.

Lemma with_pending_same (this : KolcoinApiService) :
  with_pending this (pendingRequests this) = this.
Proof. now destruct this. Qed.

(** The first segment, with its three exits side by side: answered from
    the cache, answered by the [catch] block, or suspended on the network
    promise. *)
Lemma executeRequest_begin_eq (a : Attempt) (config : ApiRequestConfig)
    (options : Options) (this : KolcoinApiService) (h : Host) :
  let id := createRequestId config in
  let consult := useCache_of options && negb (bypassCache_of options) in
  let looked := ApiCache.get id (clock_at_lookup a) (cache this) in
  let this0 := if consult then with_cache this (snd looked) else this in
  let h0 := match pendingRequests this !! id with
            | Some c => emit (EvAbort c) h
            | None => h
            end in
  executeRequest_begin a config options this h
  = match (if consult then fst looked else None) with
    | Some r => (Answered r, this0, h)
    | None =>
        match prepare_throws a with
        | Some e =>
            (Answered (requestFailed e),
             with_pending this0 (delete id (pendingRequests this)), h0)
        | None =>
            (Awaiting id,
             with_pending this0 (<[id := nextController h]> (pendingRequests this)),
             emit (EvFetch (nextController h) id) (snd (newController h0)))
        end
    end.
Proof.
  intros id consult looked this0 h0.
  unfold executeRequest_begin.
  fold id. fold consult. fold looked.
  subst this0 h0.
  destruct consult; destruct looked as [[r|] c]; simpl; try reflexivity;
    destruct (pendingRequests this !! id) as [old|] eqn:Hold; simpl;
    destruct (prepare_throws a); simpl;
    unfold with_pending; simpl;
    rewrite ?delete_delete_eq, ?insert_delete_eq; reflexivity.
Qed.

(** The second segment: the registry entry goes in every case; the retry
    test decides between the backoff and the return. *)
Lemma executeRequest_settle_eq (a : Attempt) (config : ApiRequestConfig)
    (options : Options) (this : KolcoinApiService) (h : Host) :
  let id := createRequestId config in
  let this1 := with_pending this (delete id (pendingRequests this)) in
  executeRequest_settle a config options this h
  = match outcome a with
    | inl e => (Returned (requestFailed e), this1, h)
    | inr response =>
        if negb (success response) && autoRetry this
           && (retryCount_of options <? maxRetries this) && shouldRetry response
        then (Retrying
                (ApiUtils.calculateBackoff (random a) (retryCount_of options) None)
                {| useCache := Some (useCache_of options);
                   bypassCache := Some true;
                   retryCount := Some (retryCount_of options + 1) |},
              this1, h)
        else if success response && useCache_of options
        then (Returned response,
              with_cache this1
                (ApiCache.set id response (cacheTime this) (clock_at_store a)
                   (cache this)), h)
        else (Returned response, this1, h)
    end.
Proof.
  intros id this1. unfold executeRequest_settle. fold id.
  destruct (outcome a) as [e|response]; [reflexivity|]. simpl.
  destruct (negb (success response) && autoRetry this
            && (retryCount_of options <? maxRetries this) && shouldRetry response);
    [reflexivity|].
  destruct (success response && useCache_of options); reflexivity.
Qed.

Lemma shouldRetry_transient (response : ApiResponse) :
  shouldRetry response = true <-> transient response.
Proof.
  unfold shouldRetry, transient. split.
  - destruct (error response) as [e|]; [|discriminate].
    intros H. exists e. split; [reflexivity|].
    apply orb_true_iff in H as [H|H]; [now left|right].
    now apply String.eqb_eq.
  - intros (e & -> & [H|H]); apply orb_true_iff; [now left|right].
    now apply String.eqb_eq.
Qed.

Lemma retries_app (xs ys : list Event) : retries (xs ++ ys) = (retries xs + retries ys)%nat.
Proof. unfold retries. now rewrite List.filter_app, length_app. Qed.

Lemma fetches_app (xs ys : list Event) : fetches (xs ++ ys) = (fetches xs + fetches ys)%nat.
Proof. unfold fetches. now rewrite List.filter_app, length_app. Qed.

(** The first segment leaves the configuration of the service and the
    timers alone, never sleeps, and issues at most one fetch. *)
Lemma executeRequest_begin_frame a config options this h b this1 h1 :
  executeRequest_begin a config options this h = (b, this1, h1) ->
  autoRetry this1 = autoRetry this
  /\ maxRetries this1 = maxRetries this
  /\ cacheTime this1 = cacheTime this
  /\ timers h1 = timers h
  /\ exists events, trace h1 = trace h ++ events
                    /\ retries events = 0%nat /\ (fetches events <= 1)%nat.
Proof.
  rewrite executeRequest_begin_eq. cbv zeta.
  destruct (ApiCache.get (createRequestId config) (clock_at_lookup a) (cache this))
    as [found c].
  destruct (useCache_of options && negb (bypassCache_of options));
    [destruct found as [r|]|]; simpl; intros H.
  1: { injection H as <- <- <-. do 4 (split; [reflexivity|]).
       exists []. rewrite app_nil_r. repeat split; (reflexivity || (cbn; lia)). }
  all: destruct (prepare_throws a); injection H as <- <- <-;
    destruct (pendingRequests this !! createRequestId config) as [old|];
    do 4 (split; [reflexivity|]); simpl.
  all: first
    [ exists []; rewrite app_nil_r; repeat split; (reflexivity || (cbn; lia))
    | eexists [_]; split; [reflexivity|]; split; [reflexivity | cbn; lia]
    | eexists [_; _]; split; [rewrite <- app_assoc; reflexivity|];
      split; [reflexivity | cbn; lia] ].
Qed.

Lemma executeRequest_settle_frame a config options this h r this1 h1 :
  executeRequest_settle a config options this h = (r, this1, h1) ->
  autoRetry this1 = autoRetry this
  /\ maxRetries this1 = maxRetries this
  /\ cacheTime this1 = cacheTime this
  /\ h1 = h
  /\ pendingRequests this1 = delete (createRequestId config) (pendingRequests this).
Proof.
  rewrite executeRequest_settle_eq. intros H.
  destruct (outcome a) as [e|response].
  - now injection H as <- <- <-.
  - destruct (negb (success response) && autoRetry this
              && (retryCount_of options <? maxRetries this) && shouldRetry response);
      [now injection H as <- <- <-|].
    destruct (success response && useCache_of options);
      now injection H as <- <- <-.
Qed.

(** When the second segment decides to retry. *)
Lemma executeRequest_settle_retrying a config options this h delay options' this1 h1 :
  executeRequest_settle a config options this h = (Retrying delay options', this1, h1) ->
  exists response,
    outcome a = inr response
    /\ success response = false
    /\ autoRetry this = true
    /\ retryCount_of options < maxRetries this
    /\ shouldRetry response = true
    /\ delay = ApiUtils.calculateBackoff (random a) (retryCount_of options) None
    /\ options' = {| useCache := Some (useCache_of options);
                     bypassCache := Some true;
                     retryCount := Some (retryCount_of options + 1) |}.
Proof.
  rewrite executeRequest_settle_eq. intros H.
  destruct (outcome a) as [e|response]; [discriminate|].
  destruct (negb (success response) && autoRetry this
            && (retryCount_of options <? maxRetries this) && shouldRetry response)
    eqn:Hc.
  - injection H as <- <- <- <-. exists response.
    apply andb_true_iff in Hc as [Hc Hs].
    apply andb_true_iff in Hc as [Hc Hlt].
    apply andb_true_iff in Hc as [Hok Hauto].
    apply negb_true_iff in Hok. apply Z.ltb_lt in Hlt.
    repeat split; assumption.
  - destruct (success response && useCache_of options); discriminate.
Qed.

(** ** Whole runs *)

(** Whatever [executeRequest_fuel] returns is a run. *)
Lemma executeRequest_fuel_run fuel w config :
  forall k options this h response this' h',
    executeRequest_fuel fuel w k config options this h = Some (response, this', h') ->
    run w config k options this h response this' h'.
Proof.
  induction fuel as [|fuel IH]; intros k options this h response this' h' H;
    [discriminate|].
  simpl in H.
  destruct (executeRequest_begin (w k) config options this h) as [[b this1] h1] eqn:Hb.
  destruct b as [r|id].
  - injection H as <- <- <-. eapply run_answered; eassumption.
  - destruct (executeRequest_settle (w k) config options this1 h1)
      as [[s this2] h2] eqn:Hs.
    destruct s as [r|delay options'].
    + injection H as <- <- <-. eapply run_returned; eassumption.
    + eapply run_retried; eauto.
Qed.

(** The recursion ends: one unit of fuel per attempt still allowed is
    enough. *)
Lemma executeRequest_fuel_total fuel w config :
  forall k options this h,
    (Z.to_nat (maxRetries this - retryCount_of options) < fuel)%nat ->
    is_Some (executeRequest_fuel fuel w k config options this h).
Proof.
  induction fuel as [|fuel IH]; intros k options this h Hfuel; [lia|].
  simpl.
  destruct (executeRequest_begin (w k) config options this h) as [[b this1] h1] eqn:Hb.
  destruct b as [r|id]; [eauto|].
  destruct (executeRequest_settle (w k) config options this1 h1)
    as [[s this2] h2] eqn:Hs.
  destruct s as [r|delay options']; [eauto|].
  apply executeRequest_begin_frame in Hb as (_ & Hm1 & _).
  pose proof (executeRequest_settle_frame _ _ _ _ _ _ _ _ Hs) as (_ & Hm2 & _).
  apply executeRequest_settle_retrying in Hs
    as (response & _ & _ & _ & Hlt & _ & _ & ->).
  apply IH. unfold retryCount_of at 1. simpl.
  rewrite Hm2. rewrite Hm1 in *. lia.
Qed.

Lemma executeRequest_total w config options this h :
  exists response this' h',
    executeRequest w config options this h = Some (response, this', h')
    /\ run w config 0%nat options this h response this' h'.
Proof.
  destruct (executeRequest_fuel_total (enough_fuel this options) w config 0%nat
              options this h) as [[[r this'] h'] H].
  { unfold enough_fuel. lia. }
  exists r, this', h'. split; [exact H|].
  now apply executeRequest_fuel_run in H.
Qed.

(** Along a run the trace only grows, by at most one backoff sleep per
    retry that [maxRetries] still allows and at most one fetch more than
    sleeps; the configuration and the timers stay as they were. *)
Lemma run_trace w config k options this h response this' h' :
  run w config k options this h response this' h' ->
  maxRetries this' = maxRetries this
  /\ autoRetry this' = autoRetry this
  /\ cacheTime this' = cacheTime this
  /\ timers h' = timers h
  /\ exists events,
       trace h' = trace h ++ events
       /\ (retries events <= Z.to_nat (maxRetries this - retryCount_of options))%nat
       /\ (fetches events <= S (retries events))%nat.
Proof.
  induction 1 as [k options this h response this1 h1 Hb
                 |k options this h id this1 h1 response this2 h2 Hb Hs
                 |k options this h id this1 h1 delay options' this2 h2
                    response this3 h3 Hb Hs Hrun IH].
  - apply executeRequest_begin_frame in Hb
      as (Ha & Hm & Hc & Ht & events & He & Hr & Hf).
    do 4 (split; [assumption|]). exists events.
    split; [assumption|]. split; lia.
  - apply executeRequest_begin_frame in Hb
      as (Ha & Hm & Hc & Ht & events & He & Hr & Hf).
    apply executeRequest_settle_frame in Hs as (Ha2 & Hm2 & Hc2 & -> & _).
    do 4 (split; [congruence|]). exists events.
    split; [assumption|]. split; lia.
  - apply executeRequest_begin_frame in Hb
      as (Ha & Hm & Hc & Ht & events & He & Hr & Hf).
    pose proof (executeRequest_settle_frame _ _ _ _ _ _ _ _ Hs)
      as (Ha2 & Hm2 & Hc2 & -> & _).
    apply executeRequest_settle_retrying in Hs
      as (resp & _ & _ & _ & Hlt & _ & _ & ->).
    destruct IH as (Hm3 & Ha3 & Hc3 & Ht3 & events' & He' & Hr' & Hf').
    simpl in Ht3.
    do 4 (split; [congruence|]).
    exists (events ++ EvSleep delay :: events').
    simpl in He'. rewrite He', He, <- !app_assoc. split; [reflexivity|].
    unfold retryCount_of at 1 in Hr'. simpl in Hr'.
    rewrite Hm2, Hm in Hr'. rewrite Hm in Hlt.
    rewrite retries_app, fetches_app.
    change (EvSleep delay :: events') with ([EvSleep delay] ++ events').
    rewrite retries_app, fetches_app. simpl.
    change (retries [EvSleep delay]) with 1%nat.
    change (fetches [EvSleep delay]) with 0%nat.
    split; lia.
Qed.

(** ** Retries *)

Lemma client_error_not_transient (response : ApiResponse) (e : ApiError) :
  error response = Some e ->
  String.prefix "HTTP_4" (code e) = true \/ code e = "REQUEST_CANCELLED" ->
  ~ transient response.
Proof.
  intros He Hcode (e' & He' & Ht). rewrite He in He'. injection He' as <-.
  destruct Hcode as [H4|Hc].
  - destruct Ht as [H5|Hn].
    + apply String.prefix_correct in H4, H5. simpl String.length in H4, H5.
      rewrite H4 in H5. discriminate.
    + rewrite Hn in H4. discriminate.
  - rewrite Hc in Ht. destruct Ht; discriminate.
Qed.

Example server_error_retried_three_times :
  exists this' h',
    executeRequest (alwaysAnswering (errorEnvelope "HTTP_503")) statusRequest noOptions
      sampleService sampleHost
    = Some (errorEnvelope "HTTP_503", this', h')
    /\ retries (trace h') = 3%nat /\ fetches (trace h') = 4%nat.
Proof. do 2 eexists. split; [vm_compute; reflexivity|]. split; reflexivity. Qed.

Example client_error_not_retried :
  exists this' h',
    executeRequest (alwaysAnswering (errorEnvelope "HTTP_404")) statusRequest noOptions
      sampleService sampleHost
    = Some (errorEnvelope "HTTP_404", this', h')
    /\ retries (trace h') = 0%nat /\ fetches (trace h') = 1%nat.
Proof. do 2 eexists. split; [vm_compute; reflexivity|]. split; reflexivity. Qed.

(** C1. Attempt [k] of a request is suspended on the network and the
    promise is fulfilled with an error envelope.  With [retry] standing for
    "autoRetry is on, the attempt count is below maxRetries, and the error
    code starts with HTTP_5 or is NETWORK_ERROR":
    - if [retry] holds, the executor sleeps for the backoff delay of this
      attempt and runs the request again with the attempt count one higher
      and bypassCache set;
    - if it does not, the envelope is returned as it is;
    - an HTTP_4xx code and REQUEST_CANCELLED never satisfy [retry];
    - every request returns, after at most [maxRetries - retryCount] backoff
      sleeps (at most [maxRetries] for a request that starts at attempt 0)
      and at most one network call more than sleeps. *)
Theorem executeRequest_retry_policy (w : Oracle) (config : ApiRequestConfig)
    (k : nat) (options : Options) (this : KolcoinApiService) (h : Host)
    (id : string) (this1 : KolcoinApiService) (h1 : Host)
    (response : ApiResponse) (fuel : nat) :
  executeRequest_begin (w k) config options this h = (Awaiting id, this1, h1) ->
  outcome (w k) = inr response ->
  success response = false ->
  let retry := autoRetry this = true
               /\ retryCount_of options < maxRetries this
               /\ transient response in
  let settled := with_pending this1 (delete id (pendingRequests this1)) in
  let delay := ApiUtils.calculateBackoff (random (w k)) (retryCount_of options) None in
  let options' := {| useCache := Some (useCache_of options);
                     bypassCache := Some true;
                     retryCount := Some (retryCount_of options + 1) |} in
  (retry ->
     executeRequest_settle (w k) config options this1 h1
       = (Retrying delay options', settled, h1)
     /\ executeRequest_fuel (S fuel) w k config options this h
        = executeRequest_fuel fuel w (S k) config options' settled
            (emit (EvSleep delay) h1))
  /\ (~ retry ->
        executeRequest_settle (w k) config options this1 h1
          = (Returned response, settled, h1)
        /\ executeRequest_fuel (S fuel) w k config options this h
           = Some (response, settled, h1))
  /\ (forall e, error response = Some e ->
        String.prefix "HTTP_4" (code e) = true \/ code e = "REQUEST_CANCELLED" ->
        ~ retry)
  /\ (exists r this' h' events,
        executeRequest w config options this h = Some (r, this', h')
        /\ trace h' = trace h ++ events
        /\ (retries events <= Z.to_nat (maxRetries this - retryCount_of options))%nat
        /\ (fetches events <= S (retries events))%nat)
  /\ (exists r this' h' events,
        executeRequest w config noOptions this h = Some (r, this', h')
        /\ trace h' = trace h ++ events
        /\ (retries events <= Z.to_nat (maxRetries this))%nat).
Proof.
  intros Hb Ho Hfail retry settled delay options'.
  pose proof (executeRequest_begin_frame _ _ _ _ _ _ _ _ Hb) as (Ha & Hm & _).
  assert (Hid : id = createRequestId config).
  { rewrite executeRequest_begin_eq in Hb. cbv zeta in Hb.
    repeat match type of Hb with
           | match ?d with _ => _ end = _ => destruct d; try discriminate
           end.
    now injection Hb as <- _ _. }
  assert (Hsettle :
    executeRequest_settle (w k) config options this1 h1
    = if autoRetry this && (retryCount_of options <? maxRetries this)
         && shouldRetry response
      then (Retrying delay options', settled, h1)
      else (Returned response, settled, h1)).
  { rewrite executeRequest_settle_eq. cbv zeta. rewrite Ho, Hfail, Ha, Hm, <- Hid.
    simpl. reflexivity. }
  split; [|split; [|split; [|split]]].
  - intros (Hauto & Hlt & Ht).
    apply shouldRetry_transient in Ht. apply Z.ltb_lt in Hlt.
    rewrite Hauto, Hlt, Ht in Hsettle. split; [exact Hsettle|].
    simpl. now rewrite Hb, Hsettle.
  - intros Hno.
    assert (Hc : autoRetry this && (retryCount_of options <? maxRetries this)
                 && shouldRetry response = false).
    { apply not_true_is_false. intros Hc. apply Hno.
      apply andb_true_iff in Hc as [Hc Hs].
      apply andb_true_iff in Hc as [Hauto Hlt].
      apply Z.ltb_lt in Hlt. apply shouldRetry_transient in Hs.
      now repeat split. }
    rewrite Hc in Hsettle. split; [exact Hsettle|].
    simpl. now rewrite Hb, Hsettle.
  - intros e He Hcode (_ & _ & Ht).
    exact (client_error_not_transient response e He Hcode Ht).
  - destruct (executeRequest_total w config options this h)
      as (r & this' & h' & Hrun & Hr).
    apply run_trace in Hr as (_ & _ & _ & _ & events & He & Hr & Hf).
    exists r, this', h', events. now repeat split.
  - destruct (executeRequest_total w config noOptions this h)
      as (r & this' & h' & Hrun & Hr).
    apply run_trace in Hr as (_ & _ & _ & _ & events & He & Hr & Hf).
    exists r, this', h', events. split; [exact Hrun|]. split; [exact He|].
    change (retryCount_of noOptions) with 0 in Hr. now rewrite Z.sub_0_r in Hr.
Qed.

Lemma executeRequest_retry_policy_witness :
  let w := alwaysAnswering (errorEnvelope "NETWORK_ERROR") in
  let id := createRequestId statusRequest in
  let this1 := with_pending sampleService {[ id := 0%nat ]} in
  let h1 := emit (EvFetch 0%nat id) (snd (newController sampleHost)) in
  executeRequest_begin (w 0%nat) statusRequest noOptions sampleService sampleHost
    = (Awaiting id, this1, h1)
  /\ outcome (w 0%nat) = inr (errorEnvelope "NETWORK_ERROR")
  /\ success (errorEnvelope "NETWORK_ERROR") = false
  /\ exists r this' h' events,
       executeRequest w statusRequest noOptions sampleService sampleHost
         = Some (r, this', h')
       /\ trace h' = trace sampleHost ++ events
       /\ (retries events <= Z.to_nat (maxRetries sampleService))%nat.
Proof.
  intros w id this1 h1.
  assert (Hb : executeRequest_begin (w 0%nat) statusRequest noOptions
                 sampleService sampleHost = (Awaiting id, this1, h1))
    by (vm_compute; reflexivity).
  split; [exact Hb|]. split; [reflexivity|]. split; [reflexivity|].
  apply (executeRequest_retry_policy w statusRequest 0%nat noOptions sampleService
           sampleHost id this1 h1 (errorEnvelope "NETWORK_ERROR") 0%nat Hb
           eq_refl eq_refl).
Defined.

(** ** The pending-request registry *)

(** A run leaves the registry as it found it when it was answered from the
    cache before touching the network, and otherwise without the key of the
    request. *)
Lemma run_pending w config k options this h response this' h' :
  run w config k options this h response this' h' ->
  (pendingRequests this' = pendingRequests this /\ h' = h)
  \/ pendingRequests this' = delete (createRequestId config) (pendingRequests this).
Proof.
  induction 1 as [k options this h response this1 h1 Hb
                 |k options this h id this1 h1 response this2 h2 Hb Hs
                 |k options this h id this1 h1 delay options' this2 h2
                    response this3 h3 Hb Hs Hrun IH].
  - rewrite executeRequest_begin_eq in Hb. cbv zeta in Hb.
    destruct (ApiCache.get (createRequestId config) (clock_at_lookup (w k))
                (cache this)) as [found c].
    destruct (useCache_of options && negb (bypassCache_of options));
      [destruct found as [r|]|]; simpl in Hb.
    1: { injection Hb as <- <- <-. now left. }
    all: destruct (prepare_throws (w k)); [|discriminate];
      injection Hb as <- <- <-; now right.
  - right.
    apply executeRequest_settle_frame in Hs as (_ & _ & _ & _ & ->).
    rewrite executeRequest_begin_eq in Hb. cbv zeta in Hb.
    repeat match type of Hb with
           | match ?d with _ => _ end = _ => destruct d; try discriminate
           end;
      injection Hb as <- <- <-; simpl; apply delete_insert_eq.
  - right.
    assert (H2 : pendingRequests this2
                 = delete (createRequestId config) (pendingRequests this)).
    { apply executeRequest_settle_frame in Hs as (_ & _ & _ & _ & ->).
      rewrite executeRequest_begin_eq in Hb. cbv zeta in Hb.
      repeat match type of Hb with
             | match ?d with _ => _ end = _ => destruct d; try discriminate
             end;
        injection Hb as <- <- <-; simpl; apply delete_insert_eq. }
    destruct IH as [[-> _]| ->]; rewrite H2; [reflexivity|].
    apply delete_delete_eq.
Qed.

Example duplicate_request_aborts_the_older_one :
  let id := createRequestId statusRequest in
  let busy := with_pending sampleService {[ id := 7%nat ]} in
  let host := {| trace := []; nextController := 8%nat; timers := timers sampleHost |} in
  executeRequest_begin (answering (successEnvelope JNull)) statusRequest noOptions
    busy host
  = (Awaiting id,
     with_pending sampleService {[ id := 8%nat ]},
     {| trace := [EvAbort 7%nat; EvFetch 8%nat id];
        nextController := 9%nat;
        timers := timers sampleHost |}).
Proof. vm_compute. reflexivity. Qed.

(** C4. The registry is a map, so it has at most one entry per key in
    every state.  When [executeRequest] reaches the network for a key that
    is registered, it aborts the registered controller and removes the
    entry before it issues its own fetch and registers the new controller
    under the key; when the key is free it just registers.  Once the
    network call has settled (fulfilled with a success, fulfilled with an
    error, or thrown) the key is out of the registry, and so it is when an
    exception stops the attempt before the call is issued, and at the end
    of every run that reached the network. *)
Theorem pending_registry_discipline (w : Oracle) (a : Attempt)
    (config : ApiRequestConfig) (options : Options)
    (this : KolcoinApiService) (h : Host) :
  let id := createRequestId config in
  let aborted := match pendingRequests this !! id with
                 | Some old => [EvAbort old]
                 | None => []
                 end in
  NoDup (map fst (map_to_list (pendingRequests this)))
  /\ (forall id' this1 h1,
        executeRequest_begin a config options this h = (Awaiting id', this1, h1) ->
        id' = id
        /\ pendingRequests this1
           = <[id := nextController h]> (delete id (pendingRequests this))
        /\ trace h1 = trace h ++ aborted ++ [EvFetch (nextController h) id]
        /\ NoDup (map fst (map_to_list (pendingRequests this1))))
  /\ (forall r this1 h1,
        executeRequest_begin a config options this h = (Answered r, this1, h1) ->
        (pendingRequests this1 = pendingRequests this /\ h1 = h)
        \/ (exists e, prepare_throws a = Some e
                      /\ r = requestFailed e
                      /\ pendingRequests this1 = delete id (pendingRequests this)
                      /\ pendingRequests this1 !! id = None
                      /\ trace h1 = trace h ++ aborted))
  /\ (forall s this1 h1,
        executeRequest_settle a config options this h = (s, this1, h1) ->
        pendingRequests this1 = delete id (pendingRequests this)
        /\ pendingRequests this1 !! id = None)
  /\ (exists r this' h',
        executeRequest w config options this h = Some (r, this', h')
        /\ ((pendingRequests this' = pendingRequests this /\ h' = h)
            \/ (pendingRequests this' = delete id (pendingRequests this)
                /\ pendingRequests this' !! id = None))).
Proof.
  intros id aborted.
  split; [apply NoDup_fst_map_to_list|].
  split; [|split; [|split]].
  - intros id' this1 h1 Hb.
    rewrite executeRequest_begin_eq in Hb. cbv zeta in Hb. fold id in Hb.
    destruct (ApiCache.get id (clock_at_lookup a) (cache this)) as [found c].
    assert (Hgoal :
      (Awaiting id,
       with_pending
         (if useCache_of options && negb (bypassCache_of options)
          then with_cache this (snd (found, c)) else this)
         (<[id := nextController h]> (pendingRequests this)),
       emit (EvFetch (nextController h) id)
         (snd (newController
                 match pendingRequests this !! id with
                 | Some c0 => emit (EvAbort c0) h
                 | None => h
                 end))) = (Awaiting id', this1, h1)).
    { destruct (useCache_of options && negb (bypassCache_of options));
        [destruct found|]; simpl in Hb; try discriminate;
        destruct (prepare_throws a); try discriminate; exact Hb. }
    injection Hgoal as <- <- <-.
    split; [reflexivity|]. split.
    { destruct (useCache_of options && negb (bypassCache_of options)); simpl;
        now rewrite insert_delete_eq. }
    split; [|apply NoDup_fst_map_to_list].
    subst aborted. destruct (pendingRequests this !! id); simpl;
      [now rewrite <- app_assoc | reflexivity].
  - intros r this1 h1 Hb.
    rewrite executeRequest_begin_eq in Hb. cbv zeta in Hb. fold id in Hb.
    destruct (ApiCache.get id (clock_at_lookup a) (cache this)) as [found c].
    destruct (useCache_of options && negb (bypassCache_of options));
      [destruct found as [r0|]|]; simpl in Hb.
    1: { injection Hb as <- <- <-. now left. }
    all: destruct (prepare_throws a) as [e|]; [|discriminate];
      injection Hb as <- <- <-; right; exists e;
      split; [reflexivity|]; split; [reflexivity|]; split; [reflexivity|];
      split; [apply lookup_delete_eq|];
      subst aborted; destruct (pendingRequests this !! id); simpl;
      [reflexivity | now rewrite app_nil_r].
  - intros s this1 h1 Hs.
    apply executeRequest_settle_frame in Hs as (_ & _ & _ & _ & ->).
    split; [reflexivity | apply lookup_delete_eq].
  - destruct (executeRequest_total w config options this h)
      as (r & this' & h' & Hrun & Hr).
    exists r, this', h'. split; [exact Hrun|].
    apply run_pending in Hr as [Hsame| ->]; [now left|right].
    split; [reflexivity | apply lookup_delete_eq].
Qed.

Lemma pending_registry_discipline_witness :
  let id := createRequestId statusRequest in
  let busy := with_pending sampleService {[ id := 7%nat ]} in
  let host := {| trace := []; nextController := 8%nat; timers := [] |} in
  let a := answering (errorEnvelope "HTTP_500") in
  executeRequest_begin a statusRequest noOptions busy host
    = (Awaiting id, with_pending sampleService {[ id := 8%nat ]},
       {| trace := [EvAbort 7%nat; EvFetch 8%nat id];
          nextController := 9%nat; timers := [] |})
  /\ pendingRequests (with_pending sampleService {[ id := 8%nat ]})
     = <[id := 8%nat]> (delete id (pendingRequests busy)).
Proof.
  intros id busy host a.
  assert (Hb : executeRequest_begin a statusRequest noOptions busy host
               = (Awaiting id, with_pending sampleService {[ id := 8%nat ]},
                  {| trace := [EvAbort 7%nat; EvFetch 8%nat id];
                     nextController := 9%nat; timers := [] |}))
    by (vm_compute; reflexivity).
  split; [exact Hb|].
  destruct (pending_registry_discipline (alwaysAnswering (errorEnvelope "HTTP_500"))
              a statusRequest noOptions busy host) as (_ & Hbegin & _).
  exact (proj1 (proj2 (Hbegin _ _ _ Hb))).
Defined.

(** ** Requests that do not use the cache *)

(** Without a cache lookup the first segment neither reads nor changes the
    cache. *)
Lemma executeRequest_begin_no_lookup a config options this h c :
  useCache_of options && negb (bypassCache_of options) = false ->
  cache (snd (fst (executeRequest_begin a config options this h))) = cache this
  /\ executeRequest_begin a config options (with_cache this c) h
     = (fst (fst (executeRequest_begin a config options this h)),
        with_cache (snd (fst (executeRequest_begin a config options this h))) c,
        snd (executeRequest_begin a config options this h)).
Proof.
  intros Hc. rewrite !executeRequest_begin_eq. cbv zeta. rewrite Hc.
  change (pendingRequests (with_cache this c)) with (pendingRequests this).
  destruct (prepare_throws a); split; reflexivity.
Qed.

(** The second segment writes the cache only to store a successful response
    of a request that uses the cache; it never reads it. *)
Lemma executeRequest_settle_cache a config options this h :
  (cache (snd (fst (executeRequest_settle a config options this h))) = cache this
   \/ exists response,
        outcome a = inr response /\ success response = true
        /\ useCache_of options = true
        /\ cache (snd (fst (executeRequest_settle a config options this h)))
           = ApiCache.set (createRequestId config) response (cacheTime this)
               (clock_at_store a) (cache this))
  /\ (useCache_of options = false ->
      forall c,
        cache (snd (fst (executeRequest_settle a config options this h))) = cache this
        /\ executeRequest_settle a config options (with_cache this c) h
           = (fst (fst (executeRequest_settle a config options this h)),
              with_cache (snd (fst (executeRequest_settle a config options this h))) c,
              snd (executeRequest_settle a config options this h))).
Proof.
  rewrite !executeRequest_settle_eq. cbv zeta. split.
  - destruct (outcome a) as [e|response]; [now left|].
    destruct (negb (success response) && autoRetry this
              && (retryCount_of options <? maxRetries this) && shouldRetry response);
      [now left|].
    destruct (success response) eqn:Hs, (useCache_of options) eqn:Hu; simpl;
      try (now left).
    right. exists response. now repeat split.
  - intros Hu c. rewrite executeRequest_settle_eq. cbv zeta. rewrite Hu.
    change (autoRetry (with_cache this c)) with (autoRetry this).
    change (maxRetries (with_cache this c)) with (maxRetries this).
    change (pendingRequests (with_cache this c)) with (pendingRequests this).
    destruct (outcome a) as [e|response]; [split; reflexivity|].
    rewrite andb_false_r.
    destruct (negb (success response) && autoRetry this
              && (retryCount_of options <? maxRetries this) && shouldRetry response);
      split; reflexivity.
Qed.

(** A request run with [useCache: false] leaves the cache as it was, and
    runs the same way whatever the cache holds. *)
Lemma executeRequest_fuel_no_cache fuel w config :
  forall k options this h r this' h',
    useCache_of options = false ->
    executeRequest_fuel fuel w k config options this h = Some (r, this', h') ->
    cache this' = cache this
    /\ forall c, executeRequest_fuel fuel w k config options (with_cache this c) h
                 = Some (r, with_cache this' c, h').
Proof.
  induction fuel as [|fuel IH]; intros k options this h r this' h' Hu H;
    [discriminate|].
  simpl in H.
  assert (Hc : useCache_of options && negb (bypassCache_of options) = false)
    by now rewrite Hu.
  pose proof (fun c => executeRequest_begin_no_lookup (w k) config options this h c Hc)
    as Hbegin.
  destruct (executeRequest_begin (w k) config options this h) as [[b this1] h1] eqn:Hb.
  simpl in Hbegin.
  destruct b as [r0|id].
  - injection H as <- <- <-. split; [apply (Hbegin (cache this))|].
    intros c. simpl. now rewrite (proj2 (Hbegin c)).
  - pose proof (proj2 (executeRequest_settle_cache (w k) config options this1 h1) Hu)
      as Hsettle.
    destruct (executeRequest_settle (w k) config options this1 h1)
      as [[s this2] h2] eqn:Hs.
    simpl in Hsettle.
    destruct s as [r0|delay options'].
    + injection H as <- <- <-. split.
      * rewrite (proj1 (Hsettle (cache this1))). apply (Hbegin (cache this)).
      * intros c. simpl. rewrite (proj2 (Hbegin c)), (proj2 (Hsettle c)). reflexivity.
    + pose proof (executeRequest_settle_retrying _ _ _ _ _ _ _ _ _ Hs)
        as (_ & _ & _ & _ & _ & _ & _ & Ho').
      assert (Hu' : useCache_of options' = false) by (rewrite Ho'; exact Hu).
      destruct (IH _ _ _ _ _ _ _ Hu' H) as [Hcache Hany]. split.
      * rewrite Hcache, (proj1 (Hsettle (cache this1))). apply (Hbegin (cache this)).
      * intros c. simpl. rewrite (proj2 (Hbegin c)), (proj2 (Hsettle c)). apply Hany.
Qed.

Example transfer_is_not_cached :
  exists this' h',
    transferTokens (alwaysAnswering (successEnvelope (JString "tx-1")))
      (sampleTransfer 5) sampleService sampleHost
    = Some (successEnvelope (JString "tx-1"), this', h')
    /\ cache this' = ∅ /\ fetches (trace h') = 1%nat.
Proof. do 2 eexists. split; [vm_compute; reflexivity|]. split; reflexivity. Qed.

Example status_is_cached :
  exists this' h',
    checkVerificationStatus (alwaysAnswering (successEnvelope (JString "active")))
      sampleWallet sampleService sampleHost
    = Some (successEnvelope (JString "active"), this', h')
    /\ cache this' !! createRequestId statusRequest
       = Some {| ApiCache.data := successEnvelope (JString "active");
                 ApiCache.expiry := 61200 |}.
Proof. do 2 eexists. split; [vm_compute; reflexivity|]. reflexivity. Qed.

(** C7. Every call of [transferTokens] returns; the cache after it is the
    cache before it; and the response, the registry and the trace of the
    call are the same for every content of the cache, so nothing it returns
    was taken from the cache.  In the executor, the first segment looks at
    the cache only under [useCache && !bypassCache], and the second writes
    it only to store a successful response when [useCache] holds. *)
Theorem transferTokens_bypasses_cache (w : Oracle) (p : TransactionParams)
    (this : KolcoinApiService) (h : Host) :
  (exists r this' h',
     transferTokens w p this h = Some (r, this', h')
     /\ cache this' = cache this
     /\ forall c, transferTokens w p (with_cache this c) h
                  = Some (r, with_cache this' c, h'))
  /\ (forall a config options c,
        useCache_of options && negb (bypassCache_of options) = false ->
        cache (snd (fst (executeRequest_begin a config options this h))) = cache this
        /\ executeRequest_begin a config options (with_cache this c) h
           = (fst (fst (executeRequest_begin a config options this h)),
              with_cache (snd (fst (executeRequest_begin a config options this h))) c,
              snd (executeRequest_begin a config options this h)))
  /\ (forall a config options,
        cache (snd (fst (executeRequest_settle a config options this h))) = cache this
        \/ exists response,
             outcome a = inr response /\ success response = true
             /\ useCache_of options = true
             /\ cache (snd (fst (executeRequest_settle a config options this h)))
                = ApiCache.set (createRequestId config) response (cacheTime this)
                    (clock_at_store a) (cache this)).
Proof.
  split; [|split].
  - unfold transferTokens.
    destruct (negb (ApiUtils.isValidSolanaAddress (from p))
              || negb (ApiUtils.isValidSolanaAddress (to p))).
    { do 3 eexists. split; [reflexivity|]. split; [reflexivity|].
      intros c. reflexivity. }
    destruct (amount p <=? 0).
    { do 3 eexists. split; [reflexivity|]. split; [reflexivity|].
      intros c. reflexivity. }
    match goal with
    | |- context [executeRequest w ?cfg ?o this h] =>
        destruct (executeRequest_total w cfg o this h) as (r & this' & h' & Hrun & _);
        exists r, this', h'; split; [exact Hrun|];
        apply (executeRequest_fuel_no_cache _ w cfg 0%nat o this h r this' h' eq_refl Hrun)
    end.
  - intros a config options c Hc.
    now apply executeRequest_begin_no_lookup.
  - intros a config options. apply executeRequest_settle_cache.
Qed.

Lemma transferTokens_bypasses_cache_witness :
  let w := alwaysAnswering (successEnvelope (JString "tx-1")) in
  let stale := ApiCache.set (createRequestId statusRequest)
                 (successEnvelope (JString "stale")) 60000 0 ∅ in
  let this := with_cache sampleService stale in
  let options := {| useCache := Some false; bypassCache := None; retryCount := None |} in
  useCache_of options && negb (bypassCache_of options) = false
  /\ cache (snd (fst (executeRequest_begin (w 0%nat) statusRequest options this
                        sampleHost))) = stale
  /\ exists r this' h',
       transferTokens w (sampleTransfer 5) this sampleHost = Some (r, this', h')
       /\ cache this' = stale.
Proof.
  intros w stale this options.
  destruct (transferTokens_bypasses_cache w (sampleTransfer 5) this sampleHost)
    as ((r & this' & h' & Hrun & Hcache & _) & Hbegin & _).
  split; [reflexivity|]. split.
  - exact (proj1 (Hbegin (w 0%nat) statusRequest options stale eq_refl)).
  - exists r, this', h'. split; [exact Hrun | exact Hcache].
Defined.

(** ** Validation in the domain methods *)

Example zero_is_not_base58 :
  ApiUtils.isValidSolanaAddress "C01NvXkGkLadF2VDDaTZMPwVbYUAaQV8e5hJ3HEV9xLc" = false.
Proof. reflexivity. Qed.

Example short_address_rejected :
  ApiUtils.isValidSolanaAddress "1111111111111111111111111111111" = false.
Proof. reflexivity. Qed.

Example base58_address_accepted :
  ApiUtils.isValidSolanaAddress "D3fkqY2SWNEgpdVZBsLYJgtVvDJYk17gVzQmYJ8LZHbP" = true.
Proof. reflexivity. Qed.

(** C8. For a wallet string that the address validator rejects,
    [checkVerificationStatus], [checkWhitelistStatus] and [getKolMetrics]
    return the failure envelope with code INVALID_WALLET, and so does
    [transferTokens] when the rejected string is its [from] or its [to]
    address.  The service and the host come back unchanged: no fetch in the
    trace, the same cache, the same registry; the answer does not depend on
    the network. *)
Theorem invalid_wallet_short_circuits (w : Oracle) (wallet : string)
    (this : KolcoinApiService) (h : Host) :
  ApiUtils.isValidSolanaAddress wallet = false ->
  let rejected (result : option (ApiResponse * KolcoinApiService * Host)) :=
    exists r, result = Some (r, this, h)
              /\ success r = false
              /\ code <$> error r = Some "INVALID_WALLET" in
  rejected (checkVerificationStatus w wallet this h)
  /\ rejected (checkWhitelistStatus w wallet this h)
  /\ rejected (getKolMetrics w wallet this h)
  /\ (forall p, from p = wallet \/ to p = wallet ->
                rejected (transferTokens w p this h)).
Proof.
  intros Hbad rejected.
  unfold rejected, checkVerificationStatus, checkWhitelistStatus, getKolMetrics.
  rewrite Hbad. simpl.
  split; [|split; [|split]]; try (eexists; repeat split; reflexivity).
  intros p [Hp|Hp]; unfold transferTokens; rewrite Hp, Hbad; simpl;
    rewrite ?orb_true_r; eexists; repeat split; reflexivity.
Qed.

Lemma invalid_wallet_short_circuits_witness :
  let w := alwaysAnswering (successEnvelope JNull) in
  ApiUtils.isValidSolanaAddress "not-a-wallet" = false
  /\ exists r,
       checkVerificationStatus w "not-a-wallet" sampleService sampleHost
         = Some (r, sampleService, sampleHost)
       /\ success r = false
       /\ code <$> error r = Some "INVALID_WALLET".
Proof.
  intros w. split; [reflexivity|].
  exact (proj1 (invalid_wallet_short_circuits w "not-a-wallet" sampleService
                  sampleHost eq_refl)).
Defined.

(** C9. With both addresses accepted by the validator and an amount that
    is zero or negative, [transferTokens] returns the failure envelope with
    code INVALID_AMOUNT and hands back the service and the host unchanged
    (no fetch, same cache, same registry), whatever the network would have
    answered.  The transfer of amount 0 from the all-ones address to the
    all-twos address is such a call. *)
Theorem invalid_amount_short_circuits (w : Oracle) (p : TransactionParams)
    (this : KolcoinApiService) (h : Host) :
  ApiUtils.isValidSolanaAddress (from p) = true ->
  ApiUtils.isValidSolanaAddress (to p) = true ->
  amount p <= 0 ->
  transferTokens w p this h = Some (invalidAmount, this, h)
  /\ success invalidAmount = false
  /\ code <$> error invalidAmount = Some "INVALID_AMOUNT"
  /\ transferTokens w
       {| from := "11111111111111111111111111111111";
          to := "22222222222222222222222222222222";
          amount := 0; memo := None |} this h
     = Some (invalidAmount, this, h).
Proof.
  intros Hfrom Hto Hamount. split; [|repeat split].
  unfold transferTokens. rewrite Hfrom, Hto. simpl.
  apply Z.leb_le in Hamount. now rewrite Hamount.
Qed.

Lemma invalid_amount_short_circuits_witness :
  let w := alwaysAnswering (successEnvelope JNull) in
  ApiUtils.isValidSolanaAddress (from (sampleTransfer (-3))) = true
  /\ ApiUtils.isValidSolanaAddress (to (sampleTransfer (-3))) = true
  /\ amount (sampleTransfer (-3)) <= 0
  /\ transferTokens w (sampleTransfer (-3)) sampleService sampleHost
     = Some (invalidAmount, sampleService, sampleHost).
Proof.
  intros w. split; [reflexivity|]. split; [reflexivity|]. split; [simpl; lia|].
  apply (invalid_amount_short_circuits w (sampleTransfer (-3)) sampleService sampleHost);
    [reflexivity | reflexivity | simpl; lia].
Defined.

(** ** Construction *)


(** One attempt that ends in an error envelope, inside a run. *)
Lemma executeRequest_fuel_error fuel w config k options this h id this1 h1 response :
  executeRequest_begin (w k) config options this h = (Awaiting id, this1, h1) ->
  outcome (w k) = inr response ->
  success response = false ->
  executeRequest_fuel (S fuel) w k config options this h
  = if autoRetry this && (retryCount_of options <? maxRetries this)
       && shouldRetry response
    then executeRequest_fuel fuel w (S k) config
           {| useCache := Some (useCache_of options);
              bypassCache := Some true;
              retryCount := Some (retryCount_of options + 1) |}
           (with_pending this1 (delete id (pendingRequests this1)))
           (emit (EvSleep (ApiUtils.calculateBackoff (random (w k))
                             (retryCount_of options) None)) h1)
    else Some (response, with_pending this1 (delete id (pendingRequests this1)), h1).
Proof.
  intros Hb Ho Hfail.
  pose proof (executeRequest_begin_frame _ _ _ _ _ _ _ _ Hb) as (Ha & Hm & _).
  assert (Hid : id = createRequestId config).
  { rewrite executeRequest_begin_eq in Hb. cbv zeta in Hb.
    repeat match type of Hb with
           | match ?d with _ => _ end = _ => destruct d; try discriminate
           end.
    now injection Hb as <- _ _. }
  simpl. rewrite Hb, executeRequest_settle_eq. cbv zeta.
  rewrite Ho, Hfail, Ha, Hm, <- Hid. simpl.
  now destruct (autoRetry this && (retryCount_of options <? maxRetries this)
                && shouldRetry response).
Qed.

Example zero_maxRetries_still_retries :
  let this := fst (constructor
                     {| opt_credentials := opt_credentials sampleOptions;
                        opt_autoRetry := None;
                        opt_maxRetries := Some 0;
                        opt_cacheTime := Some 0 |} emptyHost) in
  maxRetries this = 3 /\ cacheTime this = 60000
  /\ exists this' h',
       executeRequest (alwaysAnswering (errorEnvelope "HTTP_502")) statusRequest
         noOptions this sampleHost
       = Some (errorEnvelope "HTTP_502", this', h')
       /\ retries (trace h') = 3%nat.
Proof.
  intros this. split; [reflexivity|]. split; [reflexivity|].
  do 2 eexists. split; [vm_compute; reflexivity | reflexivity].
Qed.



(** ** Teardown *)







(* ===================================================================== *)
(** * Further properties of the code *)
(* ===================================================================== *)

(** ** The cache, in any state *)

(** X1. A lookup never returns a value past its expiry, whatever the map
    holds: a value comes back only from an entry of the key whose expiry is
    not before the lookup.  The lookup touches no other key, and what it
    leaves under its own key is an entry that was there and is still
    fresh. *)
Theorem get_never_stale {T : Type} (c : gmap string (ApiCache.Entry T))
    (key : string) (t : Z) :
  (forall v, fst (ApiCache.get key t c) = Some v ->
             exists e, c !! key = Some e /\ ApiCache.data e = v
                       /\ t <= ApiCache.expiry e)
  /\ (forall k, k <> key -> snd (ApiCache.get key t c) !! k = c !! k)
  /\ (forall e, snd (ApiCache.get key t c) !! key = Some e ->
                c !! key = Some e /\ t <= ApiCache.expiry e)
  /\ (c !! key = None -> ApiCache.get key t c = (None, c)).
Proof.
  destruct (c !! key) as [e|] eqn:Hl.
  - rewrite (get_fresh key e t c Hl).
    destruct (Z.leb_spec t (ApiCache.expiry e)) as [Hle|Hgt]; simpl.
    + split; [intros v [= <-]; eauto|]. split; [reflexivity|].
      split; [|discriminate]. intros e' He'. rewrite Hl in He'.
      injection He' as <-. auto.
    + split; [discriminate|]. split; [intros k Hk; now apply lookup_delete_ne|].
      split; [|discriminate]. intros e'. now rewrite lookup_delete_eq.
  - rewrite (get_absent key t c Hl). simpl.
    split; [discriminate|]. split; [reflexivity|].
    split; [|reflexivity]. intros e. now rewrite Hl.
Qed.

Lemma get_never_stale_witness :
  let c : gmap string (ApiCache.Entry Z) :=
    ApiCache.set "a" 1 10 0 (ApiCache.set "b" 2 5 0 ∅) in
  "b" <> "a"
  /\ snd (ApiCache.get "a" 11 c) !! "b" = c !! "b"
  /\ fst (ApiCache.get "a" 11 c) = None.
Proof.
  intros c.
  assert (Hne : "b" <> "a") by discriminate.
  split; [exact Hne|].
  split; [exact (proj1 (proj2 (get_never_stale c "a" 11)) "b" Hne)|].
  reflexivity.
Defined.

Lemma clearExpired_lookup {T : Type} (now : Z) (c : gmap string (ApiCache.Entry T))
    (k : string) (e : ApiCache.Entry T) :
  ApiCache.clearExpired now c !! k = Some e
  <-> c !! k = Some e /\ now <= ApiCache.expiry e.
Proof.
  unfold ApiCache.clearExpired. rewrite map_lookup_filter_Some. simpl.
  split; intros [H1 H2]; (split; [exact H1|lia]).
Qed.

(** X2. The sweep keeps exactly the entries whose expiry has not passed.
    It cannot be seen through [get]: at the time of the sweep or later, a
    lookup returns the same with and without it.  Sweeping twice is
    sweeping once. *)
Theorem clearExpired_invisible {T : Type} (c : gmap string (ApiCache.Entry T))
    (key : string) (now t : Z) :
  now <= t ->
  fst (ApiCache.get key t (ApiCache.clearExpired now c)) = fst (ApiCache.get key t c)
  /\ (forall k e, ApiCache.clearExpired now c !! k = Some e
                  <-> c !! k = Some e /\ now <= ApiCache.expiry e)
  /\ ApiCache.clearExpired now (ApiCache.clearExpired now c)
     = ApiCache.clearExpired now c.
Proof.
  intros Hnow. split; [|split].
  - destruct (c !! key) as [e|] eqn:Hl.
    + rewrite (get_fresh key e t c Hl).
      destruct (Z.leb_spec t (ApiCache.expiry e)) as [Hle|Hgt]; simpl.
      * assert (Hs : ApiCache.clearExpired now c !! key = Some e)
          by (apply clearExpired_lookup; split; [exact Hl|lia]).
        rewrite (get_fresh key e t _ Hs).
        destruct (Z.leb_spec t (ApiCache.expiry e)); [reflexivity|lia].
      * destruct (ApiCache.clearExpired now c !! key) as [e'|] eqn:Hs.
        -- apply clearExpired_lookup in Hs as Hs'. destruct Hs' as [Hc _].
           rewrite Hl in Hc. injection Hc as <-.
           rewrite (get_fresh key e t _ Hs).
           destruct (Z.leb_spec t (ApiCache.expiry e)); [lia|reflexivity].
        -- now rewrite (get_absent key t _ Hs).
    + rewrite (get_absent key t c Hl).
      destruct (ApiCache.clearExpired now c !! key) as [e'|] eqn:Hs.
      * apply clearExpired_lookup in Hs as [Hc _]. congruence.
      * now rewrite (get_absent key t _ Hs).
  - intros k e. apply clearExpired_lookup.
  - apply map_eq. intros k. apply option_eq. intros e.
    rewrite !clearExpired_lookup. tauto.
Qed.

Lemma clearExpired_invisible_witness :
  let c : gmap string (ApiCache.Entry Z) :=
    ApiCache.set "a" 1 10 0 (ApiCache.set "b" 2 50 0 ∅) in
  20 <= 30
  /\ fst (ApiCache.get "b" 30 (ApiCache.clearExpired 20 c)) = Some 2
  /\ ApiCache.clearExpired 20 c !! "a" = None.
Proof.
  intros c. split; [lia|]. split.
  - rewrite (proj1 (clearExpired_invisible c "b" 20 30 ltac:(lia))). reflexivity.
  - vm_compute. reflexivity.
Defined.

(** ** What ends up in the cache *)

Lemma executeRequest_begin_cache a config options this h b this1 h1 :
  executeRequest_begin a config options this h = (b, this1, h1) ->
  forall k e, cache this1 !! k = Some e -> cache this !! k = Some e.
Proof.
  rewrite executeRequest_begin_eq. cbv zeta. intros H k e.
  assert (Hsub : forall c', (c' = cache this
                             \/ c' = snd (ApiCache.get (createRequestId config)
                                            (clock_at_lookup a) (cache this))) ->
                            c' !! k = Some e -> cache this !! k = Some e).
  { intros c' [-> | ->]; [auto|].
    unfold ApiCache.get.
    destruct (cache this !! createRequestId config) as [e0|]; [|auto].
    destruct (clock_at_lookup a >? ApiCache.expiry e0); simpl; [|auto].
    intros Hd. apply lookup_delete_Some in Hd. tauto. }
  destruct (ApiCache.get (createRequestId config) (clock_at_lookup a) (cache this))
    as [found c] eqn:Hg.
  destruct (useCache_of options && negb (bypassCache_of options));
    [destruct found as [r|]|]; simpl in H.
  1: { injection H as <- <- <-. simpl. apply Hsub. now right. }
  all: destruct (prepare_throws a); injection H as <- <- <-; simpl;
    apply Hsub; auto.
Qed.

(** X3. A request writes nothing but successes into the cache: every entry
    the cache holds after [executeRequest] was already there before, or is
    a successful envelope stored under the id of the request.  So a cache
    that holds only successful envelopes (as the empty cache of a new
    service does) holds only successful envelopes afterwards, and an error
    is never served from it. *)
Theorem executeRequest_caches_only_successes (w : Oracle) (config : ApiRequestConfig)
    (options : Options) (this : KolcoinApiService) (h : Host) :
  exists r this' h',
    executeRequest w config options this h = Some (r, this', h')
    /\ (forall k e, cache this' !! k = Some e ->
          cache this !! k = Some e
          \/ (k = createRequestId config /\ success (ApiCache.data e) = true))
    /\ ((forall k e, cache this !! k = Some e -> success (ApiCache.data e) = true) ->
        forall k e, cache this' !! k = Some e -> success (ApiCache.data e) = true).
Proof.
  destruct (executeRequest_total w config options this h)
    as (r & this' & h' & Hrun & Hr).
  exists r, this', h'. split; [exact Hrun|].
  assert (Hmain : forall k e, cache this' !! k = Some e ->
            cache this !! k = Some e
            \/ (k = createRequestId config /\ success (ApiCache.data e) = true)).
  { clear Hrun. induction Hr as [k options this h response this1 h1 Hb
                 |k options this h id this1 h1 response this2 h2 Hb Hs
                 |k options this h id this1 h1 delay options' this2 h2
                    response this3 h3 Hb Hs Hrun IH]; intros k0 e He.
    - left. eapply executeRequest_begin_cache; eassumption.
    - pose proof (proj1 (executeRequest_settle_cache (w k) config options this1 h1))
        as Hc. rewrite Hs in Hc. simpl in Hc.
      destruct Hc as [Hc | (resp & Ho & Hok & Hu & Hc)]; rewrite Hc in He.
      + left. eapply executeRequest_begin_cache; eassumption.
      + unfold ApiCache.set in He.
        destruct (decide (createRequestId config = k0)) as [<-|Hne].
        * rewrite lookup_insert_eq in He. injection He as <-. right. auto.
        * rewrite lookup_insert_ne in He by exact Hne.
          left. eapply executeRequest_begin_cache; eassumption.
    - destruct (IH k0 e He) as [Hold|Hnew]; [|now right].
      pose proof (proj1 (executeRequest_settle_cache (w k) config options this1 h1))
        as Hc. rewrite Hs in Hc. simpl in Hc.
      destruct Hc as [Hc | (resp & Ho & Hok & Hu & Hc)].
      + rewrite Hc in Hold. left. eapply executeRequest_begin_cache; eassumption.
      + apply executeRequest_settle_retrying in Hs as (resp' & Ho' & Hfail & _).
        rewrite Ho in Ho'. injection Ho' as <-. congruence. }
  split; [exact Hmain|].
  intros Hinv k e He. destruct (Hmain k e He) as [Hold|[_ Hok]]; eauto.
Qed.

Example failed_request_leaves_cache_empty :
  exists r this' h',
    executeRequest (alwaysAnswering (errorEnvelope "HTTP_404")) statusRequest noOptions
      sampleService sampleHost = Some (r, this', h')
    /\ cache this' = ∅.
Proof. do 3 eexists. split; [vm_compute; reflexivity | reflexivity]. Qed.

Lemma executeRequest_caches_only_successes_witness :
  exists r this' h',
    executeRequest (alwaysAnswering (successEnvelope JNull)) statusRequest noOptions
      sampleService sampleHost = Some (r, this', h')
    /\ forall k e, cache this' !! k = Some e -> success (ApiCache.data e) = true.
Proof.
  destruct (executeRequest_caches_only_successes
              (alwaysAnswering (successEnvelope JNull)) statusRequest noOptions
              sampleService sampleHost) as (r & this' & h' & Hrun & _ & Hinv).
  exists r, this', h'. split; [exact Hrun|].
  apply Hinv. intros k e He. change (cache sampleService) with
    (∅ : gmap string (ApiCache.Entry ApiResponse)) in He.
  now rewrite lookup_empty in He.
Defined.

(** ** Runs of the executor *)

Lemma executeRequest_begin_miss a config options this h :
  useCache_of options && negb (bypassCache_of options) = false
  \/ cache this !! createRequestId config = None ->
  let id := createRequestId config in
  let h0 := match pendingRequests this !! id with
            | Some c => emit (EvAbort c) h
            | None => h
            end in
  executeRequest_begin a config options this h
  = match prepare_throws a with
    | Some e =>
        (Answered (requestFailed e),
         with_pending this (delete id (pendingRequests this)), h0)
    | None =>
        (Awaiting id,
         with_pending this (<[id := nextController h]> (pendingRequests this)),
         emit (EvFetch (nextController h) id) (snd (newController h0)))
    end.
Proof.
  intros Hmiss id h0. rewrite executeRequest_begin_eq. cbv zeta. fold id.
  destruct (useCache_of options && negb (bypassCache_of options)) eqn:Hc;
    [|reflexivity].
  destruct Hmiss as [Hf|Hnone]; [discriminate|].
  fold id in Hnone. rewrite (get_absent _ _ _ Hnone). simpl.
  now rewrite with_cache_same.
Qed.

Lemma executeRequest_fuel_S fuel w k config options this h :
  executeRequest_fuel (S fuel) w k config options this h
  = match executeRequest_begin (w k) config options this h with
    | (Answered response, this1, h1) => Some (response, this1, h1)
    | (Awaiting _, this1, h1) =>
        match executeRequest_settle (w k) config options this1 h1 with
        | (Returned response, this2, h2) => Some (response, this2, h2)
        | (Retrying delay options', this2, h2) =>
            executeRequest_fuel fuel w (S k) config options' this2
              (emit (EvSleep delay) h2)
        end
    end.
Proof. reflexivity. Qed.

(** What the first segment adds to the trace when it reaches the network. *)
Lemma begin_events (this : KolcoinApiService) (h : Host) (id : string) :
  let h0 := match pendingRequests this !! id with
            | Some c => emit (EvAbort c) h
            | None => h
            end in
  exists events,
    trace (emit (EvFetch (nextController h) id) (snd (newController h0)))
    = trace h ++ events
    /\ trace h0 ++ [EvFetch (nextController h) id] = trace h ++ events
    /\ List.filter is_sleep events = []
    /\ fetches events = 1%nat
    /\ (pendingRequests this !! id = None -> events = [EvFetch (nextController h) id]).
Proof.
  destruct (pendingRequests this !! id) as [c|]; simpl.
  - exists [EvAbort c; EvFetch (nextController h) id].
    rewrite <- app_assoc. repeat split; try reflexivity. discriminate.
  - exists [EvFetch (nextController h) id]. repeat split; reflexivity.
Qed.

Lemma run_after_begin w config k options this h response this' h' id this1 h1 :
  run w config k options this h response this' h' ->
  executeRequest_begin (w k) config options this h = (Awaiting id, this1, h1) ->
  exists events, trace h' = trace h1 ++ events.
Proof.
  intros Hrun Hb. inversion Hrun; subst.
  - congruence.
  - match goal with
    | H : executeRequest_begin _ _ _ _ _ = (Awaiting ?i, ?t, ?g) |- _ =>
        rewrite Hb in H; injection H as <- <- <-
    end.
    match goal with
    | H : executeRequest_settle _ _ _ _ _ = _ |- _ =>
        apply executeRequest_settle_frame in H as (_ & _ & _ & -> & _)
    end.
    exists []. now rewrite app_nil_r.
  - match goal with
    | H : executeRequest_begin _ _ _ _ _ = (Awaiting ?i, ?t, ?g) |- _ =>
        rewrite Hb in H; injection H as <- <- <-
    end.
    match goal with
    | H : executeRequest_settle _ _ _ _ _ = _ |- _ =>
        apply executeRequest_settle_frame in H as (_ & _ & _ & -> & _)
    end.
    match goal with
    | H : run _ _ _ _ _ _ _ _ _ |- _ =>
        apply run_trace in H as (_ & _ & _ & _ & events & He & _)
    end.
    simpl in He. eexists. rewrite He, <- app_assoc. reflexivity.
Qed.

(** X4. A successful response of a cached request is stored with expiry
    [store time + cacheTime].  A second request with the same id whose
    lookup falls at or before that expiry returns the stored envelope and
    changes nothing: no fetch, same cache, same registry.  A second request
    after the expiry goes to the network again. *)
Theorem cached_response_reused (w w2 : Oracle) (config : ApiRequestConfig)
    (this : KolcoinApiService) (h : Host) (r : ApiResponse) :
  cache this !! createRequestId config = None ->
  prepare_throws (w 0%nat) = None ->
  outcome (w 0%nat) = inr r ->
  success r = true ->
  let id := createRequestId config in
  let expiry := clock_at_store (w 0%nat) + cacheTime this in
  exists this1 h1,
    executeRequest w config noOptions this h = Some (r, this1, h1)
    /\ cache this1 !! id = Some {| ApiCache.data := r; ApiCache.expiry := expiry |}
    /\ pendingRequests this1 !! id = None
    /\ (clock_at_lookup (w2 0%nat) <= expiry ->
        executeRequest w2 config noOptions this1 h1 = Some (r, this1, h1))
    /\ (expiry < clock_at_lookup (w2 0%nat) ->
        prepare_throws (w2 0%nat) = None ->
        exists r2 this2 h2 events,
          executeRequest w2 config noOptions this1 h1 = Some (r2, this2, h2)
          /\ trace h2 = trace h1 ++ EvFetch (nextController h1) id :: events).
Proof.
  intros Hmiss Hprep Ho Hok id expiry.
  pose proof (executeRequest_begin_miss (w 0%nat) config noOptions this h
                (or_intror Hmiss)) as Hb.
  cbv zeta in Hb. rewrite Hprep in Hb. fold id in Hb.
  set (this0 := with_pending this (<[id := nextController h]> (pendingRequests this)))
    in Hb.
  set (h1 := emit (EvFetch (nextController h) id) _) in Hb.
  set (this1 := with_cache (with_pending this0 (delete id (pendingRequests this0)))
                  (ApiCache.set id r (cacheTime this) (clock_at_store (w 0%nat))
                     (cache this))).
  assert (Hfirst : executeRequest w config noOptions this h = Some (r, this1, h1)).
  { unfold executeRequest, enough_fuel. rewrite executeRequest_fuel_S, Hb.
    rewrite executeRequest_settle_eq. cbv zeta. rewrite Ho, Hok. reflexivity. }
  assert (Hentry : cache this1 !! id
                   = Some {| ApiCache.data := r; ApiCache.expiry := expiry |})
    by apply lookup_insert_eq.
  assert (Hpend : pendingRequests this1 !! id = None) by apply lookup_delete_eq.
  exists this1, h1. split; [exact Hfirst|]. split; [exact Hentry|].
  split; [exact Hpend|]. split.
  - intros Hfresh. unfold executeRequest, enough_fuel.
    rewrite executeRequest_fuel_S, executeRequest_begin_eq. cbv zeta. fold id.
    rewrite (get_fresh id _ _ _ Hentry). simpl ApiCache.expiry.
    destruct (Z.leb_spec (clock_at_lookup (w2 0%nat)) expiry); [|lia].
    simpl. now rewrite with_cache_same.
  - intros Hstale Hprep2.
    destruct (executeRequest_total w2 config noOptions this1 h1)
      as (r2 & this2 & h2 & Hrun & Hr).
    assert (Hb2 : exists t,
               executeRequest_begin (w2 0%nat) config noOptions this1 h1
               = (Awaiting id, t, emit (EvFetch (nextController h1) id)
                                    (snd (newController h1)))).
    { rewrite executeRequest_begin_eq. cbv zeta. fold id.
      rewrite (get_fresh id _ _ _ Hentry). simpl ApiCache.expiry.
      destruct (Z.leb_spec (clock_at_lookup (w2 0%nat)) expiry); [lia|].
      change (useCache_of noOptions && negb (bypassCache_of noOptions)) with true.
      cbn [fst snd]. rewrite Hprep2, Hpend. eauto. }
    destruct Hb2 as [t Hb2].
    destruct (run_after_begin _ _ _ _ _ _ _ _ _ _ _ _ Hr Hb2) as [events He].
    exists r2, this2, h2, events. split; [exact Hrun|].
    rewrite He. simpl. now rewrite <- app_assoc.
Qed.

Lemma cached_response_reused_witness :
  let w := alwaysAnswering (successEnvelope (JString "active")) in
  cache sampleService !! createRequestId statusRequest = None
  /\ prepare_throws (w 0%nat) = None
  /\ outcome (w 0%nat) = inr (successEnvelope (JString "active"))
  /\ success (successEnvelope (JString "active")) = true
  /\ exists this1 h1,
       executeRequest w statusRequest noOptions sampleService sampleHost
         = Some (successEnvelope (JString "active"), this1, h1)
       /\ executeRequest w statusRequest noOptions this1 h1
          = Some (successEnvelope (JString "active"), this1, h1).
Proof.
  intros w.
  split; [reflexivity|]. split; [reflexivity|]. split; [reflexivity|].
  split; [reflexivity|].
  destruct (cached_response_reused w w statusRequest sampleService sampleHost
              (successEnvelope (JString "active")) eq_refl eq_refl eq_refl eq_refl)
    as (this1 & h1 & H1 & _ & _ & Hhit & _).
  exists this1, h1. split; [exact H1|]. apply Hhit. vm_compute. discriminate.
Defined.

(** X5. An exception inside the [try] block (while the call is prepared,
    or as a rejection of the awaited promise) never escapes and is never
    retried: the request returns the REQUEST_FAILED envelope carrying the
    message of the error, after no backoff sleep and at most one fetch,
    with the key of the request out of the registry and the cache
    untouched. *)
Theorem exception_becomes_request_failed (w : Oracle) (config : ApiRequestConfig)
    (options : Options) (this : KolcoinApiService) (h : Host) (e : Thrown) :
  useCache_of options && negb (bypassCache_of options) = false
  \/ cache this !! createRequestId config = None ->
  prepare_throws (w 0%nat) = Some e
  \/ (prepare_throws (w 0%nat) = None /\ outcome (w 0%nat) = inl e) ->
  exists h' events,
    executeRequest w config options this h
    = Some (requestFailed e,
            with_pending this (delete (createRequestId config) (pendingRequests this)),
            h')
    /\ trace h' = trace h ++ events
    /\ retries events = 0%nat
    /\ (fetches events <= 1)%nat
    /\ success (requestFailed e) = false
    /\ code <$> error (requestFailed e) = Some "REQUEST_FAILED"
    /\ message <$> error (requestFailed e)
       = Some (default "Unknown error occurred" (error_message e)).
Proof.
  intros Hmiss Hthrow.
  pose proof (executeRequest_begin_miss (w 0%nat) config options this h Hmiss) as Hb.
  cbv zeta in Hb.
  destruct (begin_events this h (createRequestId config))
    as (events & He1 & He2 & Hs & Hf & _). cbv zeta in He1, He2.
  unfold executeRequest, enough_fuel. rewrite executeRequest_fuel_S, Hb.
  destruct Hthrow as [Hp | [Hp Ho]]; rewrite Hp.
  - eexists.
    exists (match pendingRequests this !! createRequestId config with
            | Some c => [EvAbort c]
            | None => []
            end).
    split; [reflexivity|].
    destruct (pendingRequests this !! createRequestId config); simpl;
      rewrite ?app_nil_r; repeat split; auto.
  - rewrite executeRequest_settle_eq. cbv zeta. rewrite Ho. simpl.
    rewrite delete_insert_eq.
    eexists. exists events. split; [reflexivity|]. split; [exact He1|].
    unfold retries. rewrite Hs, Hf. repeat split; auto.
Qed.

Lemma exception_becomes_request_failed_witness :
  let boom := {| thrown_value := JString "boom"; error_message := Some "boom" |} in
  let w : Oracle := fun _ =>
    {| clock_at_lookup := 0; prepare_throws := None; outcome := inl boom;
       clock_at_store := 0; random := 0.5%Q |} in
  cache sampleService !! createRequestId statusRequest = None
  /\ outcome (w 0%nat) = inl boom
  /\ exists h' events,
       executeRequest w statusRequest noOptions sampleService sampleHost
       = Some (requestFailed boom,
               with_pending sampleService
                 (delete (createRequestId statusRequest)
                    (pendingRequests sampleService)), h')
       /\ trace h' = trace sampleHost ++ events
       /\ retries events = 0%nat.
Proof.
  intros boom w. split; [reflexivity|]. split; [reflexivity|].
  destruct (exception_becomes_request_failed w statusRequest noOptions sampleService
              sampleHost boom (or_intror eq_refl) (or_intror (conj eq_refl eq_refl)))
    as (h' & events & Hrun & Ht & Hr & _).
  exists h', events. split; [exact Hrun|]. split; [exact Ht | exact Hr].
Defined.

(** The backoff sleeps of attempts [k], [k+1], ..., [k+m-1]. *)
Lemma persistent_failure_run (w : Oracle) (config : ApiRequestConfig) :
  (forall k, prepare_throws (w k) = None
             /\ exists r, outcome (w k) = inr r /\ success r = false
                          /\ shouldRetry r = true) ->
  forall m k options this h,
    autoRetry this = true ->
    retryCount_of options = Z.of_nat k ->
    Z.of_nat k <= maxRetries this ->
    Z.to_nat (maxRetries this - Z.of_nat k) = m ->
    useCache_of options && negb (bypassCache_of options) = false
    \/ cache this !! createRequestId config = None ->
    exists r this' h' events,
      executeRequest_fuel (S m) w k config options this h = Some (r, this', h')
      /\ outcome (w (k + m)%nat) = inr r
      /\ trace h' = trace h ++ events
      /\ List.filter is_sleep events
         = map (fun j => EvSleep (ApiUtils.calculateBackoff (random (w j))
                                     (Z.of_nat j) None)) (seq k m)
      /\ fetches events = S m
      /\ cache this' = cache this.
Proof.
  intros Hfail. induction m as [|m IH];
    intros k options this h Hauto Hrc Hle Hm Hmiss;
    destruct (Hfail k) as (Hprep & r & Ho & Hsf & Hsr);
    pose proof (executeRequest_begin_miss (w k) config options this h Hmiss) as Hb;
    cbv zeta in Hb; rewrite Hprep in Hb;
    destruct (begin_events this h (createRequestId config))
      as (ev0 & He1 & He2 & Hs0 & Hf0 & _); cbv zeta in He1, He2;
    rewrite (executeRequest_fuel_error _ w config k options this h _ _ _ r Hb Ho Hsf),
      Hauto, Hsr, Hrc.
  - assert (Hlt : (Z.of_nat k <? maxRetries this) = false) by (apply Z.ltb_ge; lia).
    rewrite Hlt. simpl andb. cbv iota.
    eexists r, _, _, ev0. split; [reflexivity|].
    rewrite Nat.add_0_r. split; [exact Ho|]. split; [exact He1|].
    split; [exact Hs0|]. split; [exact Hf0 | reflexivity].
  - assert (Hlt : (Z.of_nat k <? maxRetries this) = true) by (apply Z.ltb_lt; lia).
    rewrite Hlt. simpl andb. cbv iota.
    match goal with
    | |- context [executeRequest_fuel (S m) w (S k) config ?o ?t ?g] =>
        destruct (IH (S k) o t g) as (r' & this' & h' & ev & Hrun & Ho' & Ht & Hs & Hf & Hc)
    end; try reflexivity; try exact Hauto.
    + unfold retryCount_of. simpl. lia.
    + simpl. lia.
    + simpl. lia.
    + left. unfold bypassCache_of. simpl. apply andb_false_r.
    + exists r', this', h', (ev0 ++ EvSleep (ApiUtils.calculateBackoff (random (w k))
                                               (Z.of_nat k) None) :: ev).
      split; [exact Hrun|]. split; [now rewrite <- Nat.add_succ_comm|].
      split. { rewrite Ht. simpl. rewrite He2, <- !app_assoc. reflexivity. }
      split. { rewrite List.filter_app, Hs0. simpl. now rewrite Hs. }
      split. { rewrite fetches_app, Hf0. unfold fetches in *. simpl. now rewrite Hf. }
      exact Hc.
Qed.

(** X6. The retry bound is reached: when every attempt ends in a transient
    error, a request that starts at attempt 0 with [autoRetry] on makes
    exactly [maxRetries + 1] network calls, sleeps exactly [maxRetries]
    times, the sleep before attempt [j + 1] being the backoff of attempt
    [j], and returns the envelope of the last attempt; nothing is written
    to the cache. *)
Theorem persistent_failure_exhausts_retries (w : Oracle) (config : ApiRequestConfig)
    (this : KolcoinApiService) (h : Host) :
  autoRetry this = true ->
  0 <= maxRetries this ->
  cache this !! createRequestId config = None ->
  (forall k, prepare_throws (w k) = None
             /\ exists r, outcome (w k) = inr r /\ success r = false
                          /\ transient r) ->
  let n := Z.to_nat (maxRetries this) in
  exists r this' h' events,
    executeRequest w config noOptions this h = Some (r, this', h')
    /\ outcome (w n) = inr r
    /\ trace h' = trace h ++ events
    /\ List.filter is_sleep events
       = map (fun j => EvSleep (ApiUtils.calculateBackoff (random (w j))
                                   (Z.of_nat j) None)) (seq 0 n)
    /\ retries events = n
    /\ fetches events = S n
    /\ cache this' = cache this.
Proof.
  intros Hauto Hmax Hmiss Hfail n.
  destruct (persistent_failure_run w config) with
    (m := n) (k := 0%nat) (options := noOptions) (this := this) (h := h)
    as (r & this' & h' & events & Hrun & Ho & Ht & Hs & Hf & Hc);
    try reflexivity; try assumption.
  - intros k. destruct (Hfail k) as (Hp & r & Ho & Hsf & Htr).
    split; [exact Hp|]. exists r. repeat split; try assumption.
    now apply shouldRetry_transient.
  - unfold n. f_equal. lia.
  - now right.
  - exists r, this', h', events.
    split.
    { unfold executeRequest, enough_fuel.
      change (retryCount_of noOptions) with 0. rewrite Z.sub_0_r. exact Hrun. }
    split; [exact Ho|]. split; [exact Ht|]. split; [exact Hs|].
    split; [|split; [exact Hf | exact Hc]].
    unfold retries. now rewrite Hs, length_map, length_seq.
Qed.

Lemma persistent_failure_exhausts_retries_witness :
  let w := alwaysAnswering (errorEnvelope "HTTP_503") in
  autoRetry sampleService = true
  /\ 0 <= maxRetries sampleService
  /\ exists r this' h' events,
       executeRequest w statusRequest noOptions sampleService sampleHost
         = Some (r, this', h')
       /\ trace h' = trace sampleHost ++ events
       /\ retries events = 3%nat /\ fetches events = 4%nat.
Proof.
  intros w. split; [reflexivity|]. split; [vm_compute; discriminate|].
  destruct (persistent_failure_exhausts_retries w statusRequest sampleService
              sampleHost eq_refl) as (r & this' & h' & events & Hrun & _ & Ht & _
                                      & Hr & Hf & _).
  - vm_compute. discriminate.
  - reflexivity.
  - intros k. split; [reflexivity|]. exists (errorEnvelope "HTTP_503").
    split; [reflexivity|]. split; [reflexivity|].
    exists {| code := "HTTP_503"; message := "failed"; details := None |}.
    split; [reflexivity | now left].
  - exists r, this', h', events. split; [exact Hrun|]. split; [exact Ht|].
    split; [exact Hr | exact Hf].
Defined.

(** X7. A transient error followed by a success: the caller gets the
    success of the second attempt, after one backoff sleep between two
    fetches.  Although the retry runs with [bypassCache], its success is
    stored in the cache like any other, and the key is out of the
    registry at the end. *)
Theorem retry_then_success_is_cached (w : Oracle) (config : ApiRequestConfig)
    (this : KolcoinApiService) (h : Host) (r0 r1 : ApiResponse) :
  autoRetry this = true ->
  0 < maxRetries this ->
  cache this !! createRequestId config = None ->
  pendingRequests this !! createRequestId config = None ->
  prepare_throws (w 0%nat) = None -> outcome (w 0%nat) = inr r0 ->
  success r0 = false -> transient r0 ->
  prepare_throws (w 1%nat) = None -> outcome (w 1%nat) = inr r1 ->
  success r1 = true ->
  let id := createRequestId config in
  exists this' h',
    executeRequest w config noOptions this h = Some (r1, this', h')
    /\ trace h'
       = trace h ++ [EvFetch (nextController h) id;
                     EvSleep (ApiUtils.calculateBackoff (random (w 0%nat)) 0 None);
                     EvFetch (S (nextController h)) id]
    /\ cache this' = <[id := {| ApiCache.data := r1;
                                ApiCache.expiry := clock_at_store (w 1%nat)
                                                   + cacheTime this |}]> (cache this)
    /\ pendingRequests this' = pendingRequests this.
Proof.
  intros Hauto Hmax Hmiss Hfree Hp0 Ho0 Hf0 Ht0 Hp1 Ho1 Hs1 id.
  apply shouldRetry_transient in Ht0.
  pose proof (executeRequest_begin_miss (w 0%nat) config noOptions this h
                (or_intror Hmiss)) as Hb.
  cbv zeta in Hb. rewrite Hp0 in Hb. fold id in Hb, Hfree. rewrite Hfree in Hb.
  unfold executeRequest, enough_fuel.
  change (retryCount_of noOptions) with 0. rewrite Z.sub_0_r.
  destruct (Z.to_nat (maxRetries this)) as [|fuel] eqn:Hfuel; [lia|].
  rewrite (executeRequest_fuel_error _ w config 0%nat noOptions this h _ _ _ r0
             Hb Ho0 Hf0).
  rewrite Hauto, Ht0. change (retryCount_of noOptions) with 0.
  assert (Hlt : (0 <? maxRetries this) = true) by (apply Z.ltb_lt; lia).
  rewrite Hlt. simpl andb. cbv iota.
  rewrite executeRequest_fuel_S.
  simpl pendingRequests. rewrite delete_insert_eq.
  match goal with
  | |- context [executeRequest_begin (w 1%nat) config ?o ?t ?g] =>
      pose proof (executeRequest_begin_miss (w 1%nat) config o t g
                    (or_introl eq_refl)) as Hb1
  end.
  cbv zeta in Hb1. rewrite Hp1 in Hb1. fold id in Hb1.
  simpl pendingRequests in Hb1. rewrite lookup_delete_eq in Hb1.
  rewrite Hb1. rewrite executeRequest_settle_eq. cbv zeta. rewrite Ho1, Hs1.
  simpl. fold id.
  do 2 eexists. split; [reflexivity|]. simpl.
  split; [now rewrite <- !app_assoc|]. split; [reflexivity|].
  rewrite delete_insert_eq, delete_delete_eq.
  now apply delete_id.
Qed.

Lemma retry_then_success_is_cached_witness :
  let w : Oracle := fun k =>
    match k with
    | O => answering (errorEnvelope "NETWORK_ERROR")
    | _ => answering (successEnvelope (JString "active"))
    end in
  exists this' h',
    executeRequest w statusRequest noOptions sampleService sampleHost
      = Some (successEnvelope (JString "active"), this', h')
    /\ pendingRequests this' = pendingRequests sampleService.
Proof.
  intros w.
  destruct (retry_then_success_is_cached w statusRequest sampleService sampleHost
              (errorEnvelope "NETWORK_ERROR") (successEnvelope (JString "active")))
    as (this' & h' & Hrun & _ & _ & Hp); try reflexivity.
  - exists {| code := "NETWORK_ERROR"; message := "failed"; details := None |}.
    split; [reflexivity | now right].
  - exists this', h'. split; [exact Hrun | exact Hp].
Defined.

(** ** Invalidation and cancellation *)

(** X8. [invalidateCache] empties the whole cache whether a pattern is
    given or not (entries the pattern does not match go as well) and leaves
    the registry alone; the next request of any kind is not answered from
    the cache but prepared for the network. *)
Theorem invalidateCache_clears_everything (pattern : option string)
    (this : KolcoinApiService) (a : Attempt) (config : ApiRequestConfig)
    (options : Options) (h : Host) :
  cache (invalidateCache pattern this) = ∅
  /\ pendingRequests (invalidateCache pattern this) = pendingRequests this
  /\ invalidateCache pattern this = invalidateCache None this
  /\ (prepare_throws a = None ->
      exists this1 h1,
        executeRequest_begin a config options (invalidateCache pattern this) h
        = (Awaiting (createRequestId config), this1, h1)
        /\ fetches (trace h1) = S (fetches (trace h))).
Proof.
  assert (Hsame : invalidateCache pattern this = invalidateCache None this)
    by now destruct pattern.
  rewrite Hsame. split; [reflexivity|]. split; [reflexivity|].
  split; [reflexivity|]. intros Hprep.
  pose proof (executeRequest_begin_miss a config options (invalidateCache None this) h
                (or_intror (lookup_empty _))) as Hb.
  cbv zeta in Hb. rewrite Hprep in Hb. rewrite Hb.
  do 2 eexists. split; [reflexivity|].
  destruct (begin_events (invalidateCache None this) h (createRequestId config))
    as (events & He & _ & _ & Hf & _). cbv zeta in He.
  rewrite He, fetches_app, Hf. lia.
Qed.

Lemma invalidateCache_clears_everything_witness :
  let stale := ApiCache.set (createRequestId statusRequest)
                 (successEnvelope (JString "stale")) 60000 0 ∅ in
  let this := with_cache sampleService stale in
  prepare_throws (answering (successEnvelope JNull)) = None
  /\ exists this1 h1,
       executeRequest_begin (answering (successEnvelope JNull)) statusRequest noOptions
         (invalidateCache (Some "^POST:") this) sampleHost
       = (Awaiting (createRequestId statusRequest), this1, h1).
Proof.
  intros stale this. split; [reflexivity|].
  destruct (proj2 (proj2 (proj2 (invalidateCache_clears_everything (Some "^POST:") this
              (answering (successEnvelope JNull)) statusRequest noOptions sampleHost)))
              eq_refl) as (this1 & h1 & Hb & _).
  exists this1, h1. exact Hb.
Defined.

(** X9. After [cancelAllRequests] the registry is empty, so cancelling
    again aborts nothing and changes nothing, and the first segment of a
    request that follows aborts no controller. *)
Theorem cancelAllRequests_then_nothing_to_abort (this : KolcoinApiService) (h : Host)
    (a : Attempt) (config : ApiRequestConfig) (options : Options) :
  let this1 := fst (cancelAllRequests this h) in
  let h1 := snd (cancelAllRequests this h) in
  cancelAllRequests this1 h1 = (this1, h1)
  /\ cache this1 = cache this
  /\ exists events,
       trace (snd (executeRequest_begin a config options this1 h1))
       = trace h1 ++ events
       /\ forall c, EvAbort c ∉ events.
Proof.
  intros this1 h1. subst this1 h1. unfold cancelAllRequests at 1. simpl.
  split; [|split; [reflexivity|]].
  - unfold cancelAllRequests. simpl. rewrite map_to_list_empty. reflexivity.
  - set (this1 := with_pending this ∅). set (h1 := foldl _ h _).
    rewrite executeRequest_begin_eq. cbv zeta.
    change (pendingRequests this1) with (∅ : gmap string Controller).
    rewrite lookup_empty.
    destruct (ApiCache.get _ _ _) as [found c].
    destruct (useCache_of options && negb (bypassCache_of options));
      [destruct found|]; simpl;
      try (exists []; split; [now rewrite app_nil_r | intros c0; apply not_elem_of_nil]);
      destruct (prepare_throws a); simpl;
      try (exists []; split; [now rewrite app_nil_r | intros c0; apply not_elem_of_nil]);
      (eexists [_]; split; [reflexivity|]; intros c0 Hin;
       apply list_elem_of_singleton in Hin; discriminate).
Qed.

(** ** Strings *)

Lemma string_app_length (a b : string) :
  String.length (a +:+ b) = (String.length a + String.length b)%nat.
Proof. induction a as [|c a IH]; simpl; [reflexivity | now rewrite IH]. Qed.

Lemma string_app_inv_tail (a b s : string) : a +:+ s = b +:+ s -> a = b.
Proof.
  revert b. induction a as [|c a IH]; intros [|d b] H; simpl in H.
  - reflexivity.
  - apply (f_equal String.length) in H. simpl in H.
    rewrite !string_app_length in H. simpl in H. lia.
  - apply (f_equal String.length) in H. simpl in H.
    rewrite !string_app_length in H. simpl in H. lia.
  - change (String c a +:+ s) with (String c (a +:+ s)) in H.
    change (String d b +:+ s) with (String d (b +:+ s)) in H.
    injection H as -> H. f_equal. now apply IH.
Qed.


(** A base58 character needs no escape of any kind. *)
Lemma base58_char_plain (c : ascii) :
  ApiUtils.in_class ApiUtils.base58_class c = true ->
  escape_char c = String c EmptyString
  /\ Url.encode_char c = String c EmptyString
  /\ Url.is_path_safe c = true.
Proof.
  destruct c as [[] [] [] [] [] [] [] []]; vm_compute; intros H;
    (discriminate H || (repeat split; reflexivity)).
Qed.

Lemma base58_string_plain (s : string) :
  ApiUtils.all_in_class ApiUtils.base58_class s = true ->
  escape_string s = s
  /\ Url.encodeURIComponent s = s
  /\ Url.sanitizePathSegment s = s.
Proof.
  induction s as [|c s IH]; simpl; [auto|].
  intros H. apply andb_true_iff in H as [Hc Hs].
  destruct (IH Hs) as (He & Hu & Hp).
  destruct (base58_char_plain c Hc) as (Hec & Huc & Hpc).
  rewrite Hec, Huc, Hpc, He, Hu, Hp. auto.
Qed.

Lemma valid_address_base58 (s : string) :
  ApiUtils.isValidSolanaAddress s = true ->
  ApiUtils.all_in_class ApiUtils.base58_class s = true.
Proof.
  unfold ApiUtils.isValidSolanaAddress. intros H.
  apply andb_true_iff in H as [H _]. now apply andb_true_iff in H as [H _].
Qed.

(** ** Request ids of the read methods *)

Ltac cancel_appends H :=
  repeat (first [ apply String.app_inj in H
                | apply string_app_inv_tail in H ]).

(** X10. The read methods call the executor with a config made from the
    wallet alone, and for wallets that pass validation the request id
    determines the wallet: two different wallets never share a cache entry
    or a registry entry of the same method.  Nor do the status request and
    the metrics request of any two wallets share one. *)
Theorem request_ids_separate_wallets (w1 w2 : string) :
  ApiUtils.isValidSolanaAddress w1 = true ->
  ApiUtils.isValidSolanaAddress w2 = true ->
  (createRequestId (verificationRequest w1) = createRequestId (verificationRequest w2)
   -> w1 = w2)
  /\ (createRequestId (whitelistRequest w1) = createRequestId (whitelistRequest w2)
      -> w1 = w2)
  /\ (createRequestId (metricsRequest w1) = createRequestId (metricsRequest w2)
      -> w1 = w2)
  /\ createRequestId (verificationRequest w1) <> createRequestId (metricsRequest w2)
  /\ (forall w this h,
        checkVerificationStatus w w1 this h
          = executeRequest w (verificationRequest w1) noOptions this h
        /\ checkWhitelistStatus w w1 this h
           = executeRequest w (whitelistRequest w1) noOptions this h
        /\ getKolMetrics w w1 this h
           = executeRequest w (metricsRequest w1) noOptions this h).
Proof.
  intros Hv1 Hv2.
  destruct (base58_string_plain w1 (valid_address_base58 w1 Hv1)) as (He1 & _ & _).
  destruct (base58_string_plain w2 (valid_address_base58 w2 Hv2)) as (He2 & _ & _).
  split; [|split; [|split; [|split]]].
  - unfold createRequestId. simpl. intros H. cancel_appends H.
    injection H as H. now rewrite He1, He2 in H.
  - unfold createRequestId. simpl. intros H. cancel_appends H.
    injection H as H. now rewrite He1, He2 in H.
  - unfold createRequestId. simpl. intros H. cancel_appends H.
    injection H as H. now rewrite He1, He2 in H.
  - intros H. vm_compute in H. discriminate H.
  - intros w this h.
    unfold checkVerificationStatus, checkWhitelistStatus, getKolMetrics.
    rewrite Hv1. repeat split; reflexivity.
Qed.

Lemma request_ids_separate_wallets_witness :
  ApiUtils.isValidSolanaAddress "11111111111111111111111111111111" = true
  /\ ApiUtils.isValidSolanaAddress "22222222222222222222222222222222" = true
  /\ createRequestId (verificationRequest "11111111111111111111111111111111")
     <> createRequestId (metricsRequest "22222222222222222222222222222222").
Proof.
  split; [reflexivity|]. split; [reflexivity|].
  exact (proj1 (proj2 (proj2 (proj2
           (request_ids_separate_wallets "11111111111111111111111111111111"
              "22222222222222222222222222222222" eq_refl eq_refl))))).
Defined.

(** ** Path segments, URLs and headers *)

(** X11. [sanitizePathSegment] keeps the length of the segment and returns
    only characters of [[a-zA-Z0-9_-]]; it returns its argument unchanged
    exactly when the argument has no other character, so applying it twice
    is applying it once. *)
Theorem sanitizePathSegment_safe (segment : string) :
  String.length (Url.sanitizePathSegment segment) = String.length segment
  /\ string_forall Url.is_path_safe (Url.sanitizePathSegment segment) = true
  /\ (Url.sanitizePathSegment segment = segment
      <-> string_forall Url.is_path_safe segment = true)
  /\ Url.sanitizePathSegment (Url.sanitizePathSegment segment)
     = Url.sanitizePathSegment segment.
Proof.
  assert (Hsafe : forall s, string_forall Url.is_path_safe (Url.sanitizePathSegment s)
                            = true).
  { induction s as [|c s IH]; simpl; [reflexivity|]. rewrite IH, andb_true_r.
    destruct (Url.is_path_safe c) eqn:Hc; [exact Hc | reflexivity]. }
  assert (Hid : forall s, Url.sanitizePathSegment s = s
                          <-> string_forall Url.is_path_safe s = true).
  { induction s as [|c s IH]; simpl; [tauto|]. split.
    - intros H. injection H as Hc Hs. apply IH in Hs. rewrite Hs, andb_true_r.
      destruct (Url.is_path_safe c) eqn:E; [reflexivity|]. now subst c.
    - intros H. apply andb_true_iff in H as [Hc Hs].
      rewrite Hc. f_equal. now apply IH. }
  split; [|split; [apply Hsafe|split; [apply Hid|apply Hid, Hsafe]]].
  induction segment as [|c s IH]; simpl; [reflexivity | now rewrite IH].
Qed.

Example sanitizePathSegment_slashes :
  Url.sanitizePathSegment "a/b c.d-e_f" = "a_b_c_d-e_f".
Proof. reflexivity. Qed.







Example formatQueryParams_mixed :
  Url.formatQueryParams
    [("wallet", JString "a b/c"); ("skip", JNull);
     ("tags", JArray [JString "x&y"; JNumber 2]); ("page", JNumber (-1))]
  = "?wallet=a%20b%2Fc&tags[]=x%26y&tags[]=2&page=-1".
Proof. reflexivity. Qed.


(** X13. For a wallet that passes validation the URL of the status
    request is the base URL of the service, the endpoint, and the wallet
    verbatim after [?wallet=]: a valid address needs no escaping.  The
    three environments have three different base URLs. *)
Theorem status_url_of_valid_wallet (this : KolcoinApiService) (wallet : string) :
  ApiUtils.isValidSolanaAddress wallet = true ->
  Url.requestUrl this (verificationRequest wallet)
  = baseUrl this +:+ "/verification/status?wallet=" +:+ wallet
  /\ Url.requestUrl this (whitelistRequest wallet)
     = baseUrl this +:+ "/whitelist/check"
  /\ (forall e1 e2, ApiUtils.getApiBaseUrl e1 = ApiUtils.getApiBaseUrl e2 -> e1 = e2).
Proof.
  intros Hv.
  destruct (base58_string_plain wallet (valid_address_base58 wallet Hv))
    as (_ & Hu & _).
  split; [|split].
  - unfold Url.requestUrl, Url.buildApiUrl, Url.formatQueryParams. simpl.
    unfold Url.query_part. simpl. now rewrite Hu.
  - unfold Url.requestUrl, Url.buildApiUrl. simpl.
    f_equal.
  - intros [] []; simpl; intros H; (reflexivity || discriminate).
Qed.

Lemma status_url_of_valid_wallet_witness :
  ApiUtils.isValidSolanaAddress sampleWallet = true
  /\ Url.requestUrl sampleService (verificationRequest sampleWallet)
     = "https://testnet-api.kolcoin.xyz/v1/verification/status?wallet=11111111111111111111111111111111".
Proof.
  split; [reflexivity|].
  rewrite (proj1 (status_url_of_valid_wallet sampleService sampleWallet eq_refl)).
  reflexivity.
Defined.

(** X14. [createAuthHeaders] always returns the five standard headers.  A
    header passed in [additionalHeaders] wins over the standard one of the
    same name, [Authorization] included; without such an override
    [Authorization] is [Bearer] followed by the API key. *)
Theorem createAuthHeaders_override (browser : bool) (apiKey : string)
    (additionalHeaders : option (gmap string string)) :
  let result := Url.createAuthHeaders browser apiKey additionalHeaders in
  (forall name, name ∈ ["Authorization"; "Content-Type"; "Accept";
                        "X-Client-Version"; "X-Client-Platform"] ->
                is_Some (result !! name))
  /\ (forall extra name value,
        additionalHeaders = Some extra -> extra !! name = Some value ->
        result !! name = Some value)
  /\ (forall name, default ∅ additionalHeaders !! name = None ->
        result !! name = Url.createAuthHeaders browser apiKey None !! name)
  /\ Url.createAuthHeaders browser apiKey None !! "Authorization"
     = Some ("Bearer " +:+ apiKey)
  /\ Url.createAuthHeaders browser apiKey None !! "X-Client-Platform"
     = Some (if browser then "browser" else "node").
Proof.
  intros result. subst result. unfold Url.createAuthHeaders.
  split; [|split; [|split; [|split]]].
  - intros name Hin. apply lookup_union_is_Some. right.
    repeat (apply elem_of_cons in Hin as [-> | Hin];
            [now (eexists; simplify_map_eq)|]).
    now apply elem_of_nil in Hin.
  - intros extra name value -> Hl. simpl.
    now apply lookup_union_Some_l.
  - intros name Hnone. simpl.
    rewrite !lookup_union, Hnone, lookup_empty. reflexivity.
  - simpl. rewrite lookup_union, lookup_empty, lookup_insert_eq. reflexivity.
  - simpl. rewrite lookup_union, lookup_empty. simplify_map_eq. reflexivity.
Qed.

Lemma createAuthHeaders_override_witness :
  let extra : gmap string string := {[ "Authorization" := "Basic abc" ]} in
  extra !! "Authorization" = Some "Basic abc"
  /\ Url.createAuthHeaders false "secret" (Some extra) !! "Authorization"
     = Some "Basic abc".
Proof.
  intros extra.
  assert (Hl : extra !! "Authorization" = Some "Basic abc") by reflexivity.
  split; [exact Hl|].
  exact (proj1 (proj2 (createAuthHeaders_override false "secret" (Some extra)))
           extra "Authorization" "Basic abc" eq_refl Hl).
Defined.

(** ** More on the backoff *)

Lemma jitter_nonneg (random : Q) : (0 <= random)%Q -> (0 <= ApiUtils.jitter_of random)%Q.
Proof. unfold ApiUtils.jitter_of. intros H. lra. Qed.

(** X15. For a fixed draw the delay never decreases from one attempt to
    the next: a later attempt waits at least as long as an earlier one,
    with a given non-negative base delay as with the default one. *)
Theorem calculateBackoff_monotone (random : Q) (a1 a2 : Z) (baseDelay : Q) :
  (0 <= random)%Q -> (0 <= baseDelay)%Q -> a1 <= a2 ->
  (ApiUtils.calculateBackoff random a1 (Some baseDelay)
   <= ApiUtils.calculateBackoff random a2 (Some baseDelay))%Q
  /\ (ApiUtils.calculateBackoff random a1 None
      <= ApiUtils.calculateBackoff random a2 None)%Q.
Proof.
  intros Hr Hb Ha.
  pose proof (jitter_nonneg random Hr) as Hj.
  assert (Hp : (2 ^ a1 <= 2 ^ a2)%Q) by (apply Qpower_le_compat_l; [exact Ha | lra]).
  assert (Hp0 : (0 <= 2 ^ a1)%Q) by (apply Qpower_0_le; lra).
  assert (Hmono : forall b : Q, (0 <= b)%Q ->
            (b * 2 ^ a1 * ApiUtils.jitter_of random
             <= b * 2 ^ a2 * ApiUtils.jitter_of random)%Q).
  { intros b Hb0. set (p1 := (2 ^ a1)%Q) in *. set (p2 := (2 ^ a2)%Q) in *.
    set (j := ApiUtils.jitter_of random) in *.
    apply Qmult_le_compat_r; [|exact Hj].
    rewrite !(Qmult_comm b). apply Qmult_le_compat_r; [exact Hp | exact Hb0]. }
  unfold ApiUtils.calculateBackoff. simpl.
  split; apply Q.min_le_compat_l; apply Hmono; [exact Hb | lra].
Qed.

Lemma calculateBackoff_monotone_witness :
  (0 <= 0.5)%Q /\ (0 <= 300)%Q /\ 1 <= 2
  /\ (ApiUtils.calculateBackoff 0.5 1 None <= ApiUtils.calculateBackoff 0.5 2 None)%Q.
Proof.
  split; [lra|]. split; [lra|]. split; [lia|].
  apply (calculateBackoff_monotone 0.5 1 2 300); [lra | lra | lia].
Defined.



(** ** From the fetch to the envelope *)

Lemma checked_on_range (P : Z -> bool) (lo : Z) (n : nat) :
  forallb (fun k => P (lo + Z.of_nat k)) (seq 0 n) = true ->
  forall s, lo <= s < lo + Z.of_nat n -> P s = true.
Proof.
  intros Hall s Hs. rewrite forallb_forall in Hall.
  replace s with (lo + Z.of_nat (Z.to_nat (s - lo))) by lia.
  apply Hall, in_seq. lia.
Qed.

Lemma http_code_retry_5xx (s : Z) :
  500 <= s <= 599 -> String.prefix "HTTP_5" (Fetch.http_code s) = true.
Proof.
  intros Hs.
  apply (checked_on_range (fun s => String.prefix "HTTP_5" (Fetch.http_code s))
           500 100); [vm_compute; reflexivity | lia].
Qed.

Lemma http_code_no_retry_4xx (s : Z) :
  400 <= s <= 499 ->
  String.prefix "HTTP_5" (Fetch.http_code s) || String.eqb (Fetch.http_code s) "NETWORK_ERROR"
  = false.
Proof.
  intros Hs.
  apply negb_true_iff.
  apply (checked_on_range
           (fun s => negb (String.prefix "HTTP_5" (Fetch.http_code s)
                           || String.eqb (Fetch.http_code s) "NETWORK_ERROR"))
           400 100); [vm_compute; reflexivity | lia].
Qed.

Example response_503_is_http_503 :
  Fetch.parseApiResponse JNull
    {| Fetch.ok := false; Fetch.status := 503;
       Fetch.statusText := "Service Unavailable";
       Fetch.json := inr (JObject [("code", JString "MAINTENANCE")]) |}
  = {| success := false; data := None;
       error := Some {| code := "HTTP_503";
                        message := "An error occurred while communicating with the Kolcoin API";
                        details := Some JNull |};
       pagination := None |}.
Proof. reflexivity. Qed.

(** X17. A response that is not [ok] becomes a failure envelope whose code
    is [HTTP_] followed by the status.  The envelope depends on the status
    alone: the body of the response, and any error code the server put in
    it, is not read (the promise of [response.json()] is not awaited), nor
    is the status text.  A status from 500 to 599 gives a code the executor
    retries; a status from 400 to 499 gives one it does not. *)
Theorem http_error_envelope (typeError : JsValue) (response : Fetch.HttpResponse) :
  Fetch.ok response = false ->
  let r := Fetch.parseApiResponse typeError response in
  r = {| success := false; data := None;
         error := Some {| code := Fetch.http_code (Fetch.status response);
                          message := "An error occurred while communicating with the Kolcoin API";
                          details := Some JNull |};
         pagination := None |}
  /\ (forall typeError' response',
        Fetch.ok response' = false ->
        Fetch.status response' = Fetch.status response ->
        Fetch.parseApiResponse typeError' response' = r)
  /\ (500 <= Fetch.status response <= 599 -> shouldRetry r = true)
  /\ (400 <= Fetch.status response <= 499 -> shouldRetry r = false).
Proof.
  intros Hok r.
  assert (Hr : forall te resp, Fetch.ok resp = false ->
             Fetch.parseApiResponse te resp
             = {| success := false; data := None;
                  error := Some {| code := Fetch.http_code (Fetch.status resp);
                                   message := "An error occurred while communicating with the Kolcoin API";
                                   details := Some JNull |};
                  pagination := None |}).
  { intros te resp H. unfold Fetch.parseApiResponse. rewrite H. reflexivity. }
  subst r. rewrite (Hr _ _ Hok).
  split; [reflexivity|]. split.
  - intros te' resp' Hok' Hst. now rewrite (Hr _ _ Hok'), Hst.
  - split; intros Hs; unfold shouldRetry; cbn [error code].
    + now rewrite (http_code_retry_5xx _ Hs).
    + now apply http_code_no_retry_4xx.
Qed.

Lemma http_error_envelope_witness :
  let response := {| Fetch.ok := false; Fetch.status := 502;
                     Fetch.statusText := "Bad Gateway";
                     Fetch.json := inr JNull |} in
  Fetch.ok response = false
  /\ 500 <= Fetch.status response <= 599
  /\ shouldRetry (Fetch.parseApiResponse JNull response) = true.
Proof.
  intros response. split; [reflexivity|].
  assert (Hs : 500 <= Fetch.status response <= 599) by (simpl; lia).
  split; [exact Hs|].
  exact (proj1 (proj2 (proj2 (http_error_envelope JNull response eq_refl))) Hs).
Defined.

(** X18. For an [ok] response the parsed body is returned as the data of a
    success envelope, with its [pagination] property beside it, unless the
    body is [null]: reading [data.pagination] then throws inside the
    [try], and the answer is PARSE_ERROR, as it is when the body is not
    JSON.  PARSE_ERROR is not a code the executor retries. *)
Theorem ok_response_parsing (typeError : JsValue) (response : Fetch.HttpResponse) :
  Fetch.ok response = true ->
  let r := Fetch.parseApiResponse typeError response in
  (forall parsed, Fetch.json response = inr parsed ->
                  parsed <> JNull -> parsed <> JUndefined ->
                  r = {| success := true; data := Some parsed; error := None;
                         pagination := Fetch.pagination_of parsed |})
  /\ (Fetch.json response = inr JNull -> r = Fetch.parseError typeError)
  /\ (forall e, Fetch.json response = inl e ->
                r = Fetch.parseError (thrown_value e))
  /\ (forall detail, success (Fetch.parseError detail) = false
                     /\ code <$> error (Fetch.parseError detail) = Some "PARSE_ERROR"
                     /\ shouldRetry (Fetch.parseError detail) = false).
Proof.
  intros Hok r. subst r. unfold Fetch.parseApiResponse. rewrite Hok. simpl.
  split; [|split; [|split]].
  - intros parsed -> Hn Hu. destruct parsed; try reflexivity; contradiction.
  - now intros ->.
  - now intros e ->.
  - intros detail. repeat split; reflexivity.
Qed.

Lemma ok_response_parsing_witness :
  let body := JObject [("verified", JBool true);
                       ("pagination", JObject [("page", JNumber 1)])] in
  let response := {| Fetch.ok := true; Fetch.status := 200; Fetch.statusText := "OK";
                     Fetch.json := inr body |} in
  Fetch.ok response = true
  /\ Fetch.parseApiResponse JNull response
     = {| success := true; data := Some body; error := None;
          pagination := Some (JObject [("page", JNumber 1)]) |}.
Proof.
  intros body response. split; [reflexivity|].
  apply (proj1 (ok_response_parsing JNull response eq_refl) body eq_refl);
    discriminate.
Defined.

(** X19. A fetch rejected with an [AbortError] settles as
    REQUEST_CANCELLED, also when the error would otherwise count as a
    network failure.  The executor returns that envelope as it is: no
    retry whatever [autoRetry] and [maxRetries] are, nothing written to the
    cache, and the key out of the registry. *)
Theorem aborted_fetch_is_not_retried (typeError : JsValue) (e : Fetch.ErrorValue)
    (lookup store : Z) (draw : Q) (config : ApiRequestConfig) (options : Options)
    (this : KolcoinApiService) (h : Host) :
  Fetch.err_name e = Some "AbortError" ->
  Fetch.createCancellableFetch typeError (Fetch.Rejects e) = Fetch.requestCancelled
  /\ code <$> error Fetch.requestCancelled = Some "REQUEST_CANCELLED"
  /\ executeRequest_settle
       (Fetch.attempt typeError (Fetch.Rejects e) lookup store draw)
       config options this h
     = (Returned Fetch.requestCancelled,
        with_pending this (delete (createRequestId config) (pendingRequests this)),
        h).
Proof.
  intros Hname.
  assert (Hc : Fetch.createCancellableFetch typeError (Fetch.Rejects e)
               = Fetch.requestCancelled)
    by (unfold Fetch.createCancellableFetch; now rewrite Hname).
  split; [exact Hc|]. split; [reflexivity|].
  rewrite executeRequest_settle_eq. cbv zeta.
  unfold Fetch.attempt. cbn [outcome]. rewrite Hc. cbv iota.
  replace (shouldRetry Fetch.requestCancelled) with false by reflexivity.
  rewrite andb_false_r. reflexivity.
Qed.

Lemma aborted_fetch_is_not_retried_witness :
  let e := {| Fetch.instanceof_TypeError := true;
              Fetch.err_name := Some "AbortError";
              Fetch.err_message := Some "Failed to fetch";
              Fetch.err_response := None;
              Fetch.err_value := JNull |} in
  Fetch.err_name e = Some "AbortError"
  /\ Fetch.createCancellableFetch JNull (Fetch.Rejects e) = Fetch.requestCancelled.
Proof.
  intros e. split; [reflexivity|].
  exact (proj1 (aborted_fetch_is_not_retried JNull e 0 0 0.5%Q statusRequest noOptions
                  sampleService sampleHost eq_refl)).
Defined.

(** X20. What [createCancellableFetch] can settle with.  For a fetch that
    is fulfilled, or rejected with an error that carries no response, the
    envelope is a success without error part, or a failure whose code is
    REQUEST_CANCELLED, NETWORK_ERROR, UNKNOWN_ERROR, PARSE_ERROR or
    [HTTP_] followed by the status of the response.  A [TypeError] with the
    message "Failed to fetch" that is not an abort gives NETWORK_ERROR,
    which the executor retries; any other rejection that is not an abort
    gives UNKNOWN_ERROR, which it does not. *)
Theorem fetch_settlement_codes (typeError : JsValue) (o : Fetch.FetchOutcome) :
  (forall e, o = Fetch.Rejects e -> Fetch.err_response e = None) ->
  let r := Fetch.createCancellableFetch typeError o in
  ((success r = true /\ error r = None /\ is_Some (data r))
   \/ (success r = false
       /\ exists c, code <$> error r = Some c
            /\ (c = "REQUEST_CANCELLED" \/ c = "NETWORK_ERROR" \/ c = "UNKNOWN_ERROR"
                \/ c = "PARSE_ERROR"
                \/ exists resp, o = Fetch.Responds resp
                                /\ c = Fetch.http_code (Fetch.status resp))))
  /\ (forall e, o = Fetch.Rejects e ->
        Fetch.err_name e <> Some "AbortError" ->
        (Fetch.instanceof_TypeError e = true ->
         Fetch.err_message e = Some "Failed to fetch" ->
         code <$> error r = Some "NETWORK_ERROR" /\ shouldRetry r = true)
        /\ (Fetch.instanceof_TypeError e = false
            \/ Fetch.err_message e <> Some "Failed to fetch" ->
            code <$> error r = Some "UNKNOWN_ERROR" /\ shouldRetry r = false)).
Proof.
  intros Hnoresp r. subst r.
  assert (Hrej : forall e, Fetch.err_response e = None ->
             Fetch.err_name e <> Some "AbortError" ->
             Fetch.createCancellableFetch typeError (Fetch.Rejects e)
             = Fetch.handleApiError e
             /\ ((Fetch.instanceof_TypeError e = true
                  /\ Fetch.err_message e = Some "Failed to fetch"
                  /\ code <$> error (Fetch.handleApiError e) = Some "NETWORK_ERROR"
                  /\ success (Fetch.handleApiError e) = false
                  /\ shouldRetry (Fetch.handleApiError e) = true)
                 \/ ((Fetch.instanceof_TypeError e = false
                      \/ Fetch.err_message e <> Some "Failed to fetch")
                     /\ code <$> error (Fetch.handleApiError e) = Some "UNKNOWN_ERROR"
                     /\ success (Fetch.handleApiError e) = false
                     /\ shouldRetry (Fetch.handleApiError e) = false))).
  { intros e Hresp Hname. split.
    - unfold Fetch.createCancellableFetch.
      destruct (Fetch.err_name e) as [n|]; [|reflexivity].
      destruct (String.eqb_spec n "AbortError") as [->|]; [contradiction|reflexivity].
    - unfold Fetch.handleApiError. rewrite Hresp.
      destruct (Fetch.instanceof_TypeError e); simpl.
      + destruct (Fetch.err_message e) as [m|].
        * destruct (String.eqb_spec m "Failed to fetch") as [->|Hne].
          -- left. repeat split; reflexivity.
          -- right. split; [right; congruence|]. repeat split; reflexivity.
        * right. split; [right; discriminate|]. repeat split; reflexivity.
      + right. split; [now left|]. repeat split; reflexivity. }
  split.
  - destruct o as [resp|e].
    + unfold Fetch.createCancellableFetch, Fetch.parseApiResponse.
      destruct (Fetch.ok resp); simpl.
      * destruct (Fetch.json resp) as [t|parsed].
        -- right. split; [reflexivity|]. exists "PARSE_ERROR". auto 10.
        -- destruct parsed;
             try (left; repeat split; try reflexivity; eexists; reflexivity);
             right; (split; [reflexivity|]); exists "PARSE_ERROR"; auto 10.
      * right. split; [reflexivity|]. eexists. split; [reflexivity|].
        do 4 right. exists resp. auto.
    + destruct (decide (Fetch.err_name e = Some "AbortError")) as [Hab|Hab].
      * right. unfold Fetch.createCancellableFetch. rewrite Hab. simpl.
        split; [reflexivity|]. exists "REQUEST_CANCELLED". auto.
      * destruct (Hrej e (Hnoresp e eq_refl) Hab)
          as [-> [(_ & _ & Hc & Hs & _) | (_ & Hc & Hs & _)]];
          right; (split; [exact Hs|]); eexists; (split; [exact Hc|]); auto.
  - intros e -> Hab.
    destruct (Hrej e (Hnoresp e eq_refl) Hab)
      as [-> [(Ht & Hm & Hc & _ & Hr) | (Hor & Hc & _ & Hr)]].
    + split; [auto|]. intros [Hf|Hf]; congruence.
    + split; [|auto]. intros Ht Hm. destruct Hor; congruence.
Qed.

Lemma fetch_settlement_codes_witness :
  let e := {| Fetch.instanceof_TypeError := true;
              Fetch.err_name := Some "TypeError";
              Fetch.err_message := Some "Failed to fetch";
              Fetch.err_response := None;
              Fetch.err_value := JNull |} in
  Fetch.err_name e <> Some "AbortError"
  /\ shouldRetry (Fetch.createCancellableFetch JNull (Fetch.Rejects e)) = true.
Proof.
  intros e.
  assert (Hab : Fetch.err_name e <> Some "AbortError") by discriminate.
  split; [exact Hab|].
  assert (Hno : forall e', Fetch.Rejects e = Fetch.Rejects e' ->
                           Fetch.err_response e' = None)
    by (intros e' [= <-]; reflexivity).
  exact (proj2 (proj1 (proj2 (fetch_settlement_codes JNull (Fetch.Rejects e) Hno)
                         e eq_refl Hab) eq_refl eq_refl)).
Defined.

(** ** The event service *)

(** X21. [addToEventHistory] puts the new entry first and keeps at most 50
    entries of the type, dropping the oldest ones, whatever the history
    held before (also one loaded with more than 50 entries); the
    histories of the other event types are not touched. *)
Theorem addToEventHistory_bounded (eventType : string) (value : JsValue) (now : Z)
    (eventHistory : gmap string (list Events.HistoryEntry)) :
  let entry := {| Events.timestamp := now; Events.payload := value |} in
  let before := Events.getEventHistory eventType eventHistory in
  let after := Events.getEventHistory eventType
                 (Events.addToEventHistory eventType value now eventHistory) in
  after = take 50 (entry :: before)
  /\ head after = Some entry
  /\ length after = Nat.min 50 (S (length before))
  /\ (length after <= 50)%nat
  /\ (forall t, t <> eventType ->
        Events.getEventHistory t
          (Events.addToEventHistory eventType value now eventHistory)
        = Events.getEventHistory t eventHistory).
Proof.
  intros entry before after.
  assert (Hafter : after = take 50 (entry :: before)).
  { unfold after, Events.getEventHistory at 1, Events.addToEventHistory.
    rewrite lookup_insert_eq.
    change (default [] (eventHistory !! eventType)) with before.
    change (default [] (Some ?x)) with x. fold entry.
    unfold Events.historyLimit.
    destruct (50 <? length (entry :: before))%nat eqn:E; [reflexivity|].
    apply Nat.ltb_ge in E. symmetry. now apply take_ge. }
  split; [exact Hafter|]. rewrite Hafter.
  split; [reflexivity|]. split; [|split].
  - rewrite length_take. simpl. lia.
  - rewrite length_take. lia.
  - intros t Hne. unfold Events.getEventHistory, Events.addToEventHistory.
    now rewrite lookup_insert_ne by congruence.
Qed.

Lemma addToEventHistory_bounded_witness :
  let full : gmap string (list Events.HistoryEntry) :=
    {[ "transaction.sent" :=
         replicate 50 {| Events.timestamp := 0; Events.payload := JNull |} ]} in
  "whitelist.added" <> "transaction.sent"
  /\ length (Events.getEventHistory "transaction.sent"
               (Events.addToEventHistory "transaction.sent" (JBool true) 9 full))
     = 50%nat
  /\ Events.getEventHistory "whitelist.added"
       (Events.addToEventHistory "transaction.sent" (JBool true) 9 full) = [].
Proof.
  intros full.
  assert (Hne : "whitelist.added" <> "transaction.sent") by discriminate.
  destruct (addToEventHistory_bounded "transaction.sent" (JBool true) 9 full)
    as (_ & _ & Hlen & _ & Hother).
  split; [exact Hne|]. split; [rewrite Hlen; reflexivity|].
  rewrite (Hother _ Hne). reflexivity.
Defined.

Lemma notify_elem (eventType : string) (cb : nat) (ev : KolcoinEventService) :
  cb ∈ Events.notifyListeners eventType ev
  <-> exists s, listeners ev !! eventType = Some s /\ cb ∈ s.
Proof.
  unfold Events.notifyListeners.
  destruct (listeners ev !! eventType) as [s|].
  - rewrite elem_of_elements. split; [eauto|]. now intros (s' & [= <-] & H).
  - split; [intros H; now apply elem_of_nil in H | now intros (s & H & _)].
Qed.

(** X22. Subscribing is idempotent: a callback subscribed twice to a type
    is registered, and called, once, and one [off] removes it.  [off]
    after [on] gives back the listener table as it was, provided the
    callback was not subscribed before and the table holds no empty set, a
    condition that [on] and [off] themselves keep.  Neither touches the
    listeners of another type. *)
Theorem subscription_round_trip (eventType : string) (cb : nat)
    (ev : KolcoinEventService) :
  Events.on eventType cb (Events.on eventType cb ev) = Events.on eventType cb ev
  /\ cb ∈ Events.notifyListeners eventType (Events.on eventType cb ev)
  /\ NoDup (Events.notifyListeners eventType (Events.on eventType cb ev))
  /\ (cb ∉ Events.notifyListeners eventType (Events.off eventType cb ev))
  /\ (forall t, t <> eventType ->
        listeners (Events.on eventType cb ev) !! t = listeners ev !! t
        /\ listeners (Events.off eventType cb ev) !! t = listeners ev !! t)
  /\ ((forall t s, listeners ev !! t = Some s -> s <> ∅) ->
      (forall t s, listeners (Events.on eventType cb ev) !! t = Some s -> s <> ∅)
      /\ (forall t s, listeners (Events.off eventType cb ev) !! t = Some s -> s <> ∅)
      /\ (cb ∉ Events.notifyListeners eventType ev ->
          Events.off eventType cb (Events.on eventType cb ev) = ev)).
Proof.
  split; [|split; [|split; [|split; [|split]]]].
  - unfold Events.on. simpl. rewrite lookup_insert_eq. simpl.
    rewrite insert_insert_eq. do 2 f_equal. set_solver.
  - apply notify_elem. unfold Events.on. simpl. rewrite lookup_insert_eq.
    eexists. split; [reflexivity|]. set_solver.
  - unfold Events.notifyListeners.
    destruct (listeners _ !! _); [apply NoDup_elements | constructor].
  - rewrite notify_elem. intros (s & Hs & Hin). unfold Events.off in Hs.
    cbv zeta in Hs. destruct (listeners ev !! eventType) as [s0|] eqn:Hl.
    + destruct (size (s0 ∖ {[cb]}) =? 0)%nat; simpl in Hs.
      * now rewrite lookup_delete_eq in Hs.
      * rewrite lookup_insert_eq in Hs. injection Hs as <-. set_solver.
    + congruence.
  - intros t Hne. split.
    + unfold Events.on. simpl. now apply lookup_insert_ne.
    + unfold Events.off. cbv zeta.
      destruct (listeners ev !! eventType) as [s0|]; [|reflexivity].
      destruct (size (s0 ∖ {[cb]}) =? 0)%nat; simpl;
        [now apply lookup_delete_ne | now apply lookup_insert_ne].
  - intros Hinv. split; [|split].
    + intros t s. unfold Events.on. simpl.
      destruct (decide (eventType = t)) as [<-|Hne].
      * rewrite lookup_insert_eq. intros [= <-]. set_solver.
      * rewrite lookup_insert_ne by exact Hne. apply Hinv.
    + intros t s. unfold Events.off. cbv zeta.
      destruct (listeners ev !! eventType) as [s0|] eqn:Hl; [|apply Hinv].
      destruct (Nat.eqb_spec (size (s0 ∖ {[cb]})) 0) as [Hz|Hnz]; simpl.
      * intros Hd. apply lookup_delete_Some in Hd as [_ Hd]. eapply Hinv, Hd.
      * destruct (decide (eventType = t)) as [<-|Hne].
        -- rewrite lookup_insert_eq. intros [= <-] He.
           now rewrite He, size_empty in Hnz.
        -- rewrite lookup_insert_ne by exact Hne. apply Hinv.
    + intros Hnot. destruct ev as [m]. rewrite notify_elem in Hnot.
      cbn [listeners] in Hnot, Hinv.
      unfold Events.off, Events.on. cbv zeta. cbn [listeners].
      rewrite lookup_insert_eq.
      destruct (m !! eventType) as [s0|] eqn:Hl.
      * change (default ∅ (Some s0)) with s0.
        assert (Hcb : cb ∉ s0) by (intros Hin; apply Hnot; eauto).
        assert (Hs : (s0 ∪ {[cb]}) ∖ {[cb]} = s0) by set_solver.
        rewrite Hs.
        destruct (Nat.eqb_spec (size s0) 0) as [Hz|Hnz].
        -- apply size_empty_inv in Hz. apply leibniz_equiv in Hz.
           now apply Hinv in Hl.
        -- f_equal. rewrite insert_insert_eq. now apply insert_id.
      * change (default ∅ (@None (gset nat))) with (∅ : gset nat).
        assert (Hs : ((∅ : gset nat) ∪ {[cb]}) ∖ {[cb]} = ∅) by set_solver.
        rewrite Hs, size_empty. cbn [Nat.eqb]. f_equal.
        rewrite delete_insert_eq. now apply delete_id.
Qed.

Lemma subscription_round_trip_witness :
  let ev := Events.on "transaction.sent" 1%nat {| listeners := ∅ |} in
  (2%nat ∉ Events.notifyListeners "transaction.sent" ev)
  /\ Events.off "transaction.sent" 2%nat (Events.on "transaction.sent" 2%nat ev) = ev.
Proof.
  intros ev.
  assert (Hnot : 2%nat ∉ Events.notifyListeners "transaction.sent" ev).
  { vm_compute. intros H. apply list_elem_of_singleton in H. discriminate. }
  split; [exact Hnot|].
  apply (proj2 (proj2 (proj2 (proj2 (proj2
           (subscription_round_trip "transaction.sent" 2%nat ev)))))); [|exact Hnot].
  intros t s. unfold ev, Events.on. simpl.
  destruct (decide ("transaction.sent" = t)) as [<-|Hne].
  - rewrite lookup_insert_eq. intros [= <-]. set_solver.
  - rewrite lookup_insert_ne by exact Hne. now rewrite lookup_empty.
Defined.

(** X23. [emit] records the event in the history whether or not anyone
    listens, and calls each callback subscribed to that type exactly once
    and no callback of another type.  After [dispose] an event reaches no
    callback at all. *)
Theorem emit_reaches_exactly_the_subscribers (eventType : string) (value : JsValue)
    (now : Z) (ev : KolcoinEventService)
    (eventHistory : gmap string (list Events.HistoryEntry))
    (sdk : KolcoinSDK) (h : Host) :
  let result := Events.emit eventType value now ev eventHistory in
  head (Events.getEventHistory eventType (fst result))
    = Some {| Events.timestamp := now; Events.payload := value |}
  /\ NoDup (snd result)
  /\ (forall cb, cb ∈ snd result
                 <-> exists s, listeners ev !! eventType = Some s /\ cb ∈ s)
  /\ snd (Events.emit eventType value now (removeAllListeners None ev) eventHistory) = []
  /\ snd (Events.emit eventType value now (eventService (fst (dispose sdk h)))
            eventHistory) = [].
Proof.
  intros result. subst result. unfold Events.emit. simpl.
  split; [|split; [|split; [|split]]].
  - apply (addToEventHistory_bounded eventType value now eventHistory).
  - unfold Events.notifyListeners.
    destruct (listeners ev !! eventType); [apply NoDup_elements | constructor].
  - intros cb. apply notify_elem.
  - reflexivity.
  - unfold dispose. destruct (cancelAllRequests (apiService sdk) h). reflexivity.
Qed.

(** ** The logger *)

(** X24. A logger never runs at level ERROR: the level [error] falls back
    to INFO, because its number 0 is falsy.  So a logger configured with
    [error] still prints warnings and info messages on the console and,
    unless its history limit is negative, records them; [warn] and [debug]
    are taken as given, and a logger at [warn] drops info messages without
    any output. *)
Theorem logger_error_level_is_info (options : Logger.LoggerOptions)
    (name : option Logger.LevelName) (lg : Logger.Logger)
    (msg now : string) (ctx : option (gmap string JsValue)) :
  Logger.level (Logger.new options) <> Logger.ERROR
  /\ Logger.level (Logger.setLevel name lg) <> Logger.ERROR
  /\ (Logger.opt_level options = Some Logger.error_level ->
      Logger.level (Logger.new options) = Logger.INFO
      /\ (Logger.opt_enableConsole options <> Some false ->
          exists e,
            snd (Logger.log Logger.WARN msg ctx now (Logger.new options))
            = [Logger.Console Logger.WARN e]
            /\ Logger.ev_message e = msg)
      /\ (0 <= default 0 (Logger.opt_historyLimit options) ->
          length (Logger.history (fst (Logger.log Logger.WARN msg ctx now
                                         (Logger.new options)))) = 1%nat
          /\ length (Logger.history (fst (Logger.log Logger.INFO msg ctx now
                                            (Logger.new options)))) = 1%nat))
  /\ (Logger.opt_level options = Some Logger.warn_level ->
      Logger.level (Logger.new options) = Logger.WARN
      /\ Logger.log Logger.INFO msg ctx now (Logger.new options)
         = (Logger.new options, []))
  /\ (Logger.opt_level options = Some Logger.debug_level ->
      Logger.level (Logger.new options) = Logger.DEBUG).
Proof.
  split; [|split; [|split; [|split]]].
  - unfold Logger.new. simpl. now destruct (Logger.opt_level options) as [[]|].
  - simpl. now destruct name as [[]|].
  - intros Hl. unfold Logger.new, Logger.log. rewrite Hl. simpl.
    split; [reflexivity|]. split.
    + intros Hc. destruct (Logger.opt_enableConsole options) as [[|]|];
        try contradiction; simpl; eexists; split; reflexivity.
    + intros Hlim.
      assert (Hpos : 1 <= number_or (Logger.opt_historyLimit options) 100).
      { unfold number_or. destruct (Logger.opt_historyLimit options) as [v|];
          [|lia]. simpl in Hlim. destruct (Z.eqb_spec v 0); lia. }
      destruct (Z.gtb_spec (Z.of_nat 1)
                  (number_or (Logger.opt_historyLimit options) 100));
        [lia|]. split; reflexivity.
  - intros Hl. unfold Logger.new, Logger.log. rewrite Hl. simpl. auto.
  - intros Hl. unfold Logger.new. rewrite Hl. reflexivity.
Qed.

Lemma logger_error_level_is_info_witness :
  let options := {| Logger.opt_level := Some Logger.error_level;
                    Logger.opt_historyLimit := None;
                    Logger.opt_context := None;
                    Logger.opt_enableConsole := None |} in
  Logger.opt_level options = Some Logger.error_level
  /\ Logger.level (Logger.new options) = Logger.INFO.
Proof.
  intros options. split; [reflexivity|].
  exact (proj1 (proj1 (proj2 (proj2
           (logger_error_level_is_info options None (Logger.new options)
              "m" "t" None))) eq_refl)).
Defined.

(** X25. The history of a logger stays within its limit: a new logger
    satisfies [length history <= max(0, historyLimit)], and every call of
    [log] keeps it.  A message above the level of the logger changes
    nothing and produces no output; one that is recorded comes last, and
    when the history is full the oldest event is the one dropped. *)
Theorem log_history_bounded (options : Logger.LoggerOptions) (lg : Logger.Logger)
    (l : Logger.LogLevel) (msg now : string) (ctx : option (gmap string JsValue)) :
  let bounded (x : Logger.Logger) :=
    Z.of_nat (length (Logger.history x)) <= Z.max 0 (Logger.historyLimit x) in
  let event := {| Logger.ev_timestamp := now; Logger.ev_level := l;
                  Logger.ev_message := msg;
                  Logger.ev_context := default ∅ ctx ∪ Logger.context lg |} in
  bounded (Logger.new options)
  /\ (bounded lg -> bounded (fst (Logger.log l msg ctx now lg)))
  /\ (Logger.level_value l > Logger.level_value (Logger.level lg) ->
      Logger.log l msg ctx now lg = (lg, []))
  /\ (Logger.level_value l <= Logger.level_value (Logger.level lg) ->
      Logger.history (fst (Logger.log l msg ctx now lg))
      = if Z.of_nat (S (length (Logger.history lg))) >? Logger.historyLimit lg
        then tail (Logger.history lg ++ [event])
        else Logger.history lg ++ [event]).
Proof.
  intros bounded event. unfold bounded.
  assert (Hlog : Logger.level_value l <= Logger.level_value (Logger.level lg) ->
            Logger.history (fst (Logger.log l msg ctx now lg))
            = if Z.of_nat (S (length (Logger.history lg))) >? Logger.historyLimit lg
              then tail (Logger.history lg ++ [event])
              else Logger.history lg ++ [event]).
  { intros Hle. unfold Logger.log.
    destruct (Z.gtb_spec (Logger.level_value l) (Logger.level_value (Logger.level lg)));
      [lia|].
    cbn [fst Logger.history]. fold event.
    rewrite length_app. cbn [length]. now rewrite Nat.add_1_r. }
  split; [simpl; lia|]. split; [|split; [|exact Hlog]].
  - intros Hb.
    destruct (Z.gtb_spec (Logger.level_value l) (Logger.level_value (Logger.level lg)))
      as [Hgt|Hle].
    + unfold Logger.log.
      destruct (Z.gtb_spec (Logger.level_value l)
                  (Logger.level_value (Logger.level lg))); [exact Hb|lia].
    + rewrite (Hlog Hle).
      assert (Hlim : Logger.historyLimit (fst (Logger.log l msg ctx now lg))
                     = Logger.historyLimit lg).
      { unfold Logger.log.
        destruct (Logger.level_value l >? Logger.level_value (Logger.level lg));
          reflexivity. }
      rewrite Hlim.
      destruct (Z.gtb_spec (Z.of_nat (S (length (Logger.history lg))))
                  (Logger.historyLimit lg)) as [Hfull|Hroom].
      * destruct (Logger.history lg) as [|e0 rest]; simpl in *; [lia|].
        rewrite length_app. simpl. lia.
      * rewrite length_app. simpl. lia.
  - intros Hgt. unfold Logger.log.
    destruct (Z.gtb_spec (Logger.level_value l) (Logger.level_value (Logger.level lg)));
      [reflexivity|lia].
Qed.

Lemma log_history_bounded_witness :
  let lg := Logger.new {| Logger.opt_level := Some Logger.debug_level;
                          Logger.opt_historyLimit := Some 1;
                          Logger.opt_context := None;
                          Logger.opt_enableConsole := Some false |} in
  let lg1 := fst (Logger.log Logger.INFO "first" None "t1" lg) in
  let lg2 := fst (Logger.log Logger.DEBUG "second" None "t2" lg1) in
  Z.of_nat (length (Logger.history lg1)) <= Z.max 0 (Logger.historyLimit lg1)
  /\ Z.of_nat (length (Logger.history lg2)) <= Z.max 0 (Logger.historyLimit lg2)
  /\ map Logger.ev_message (Logger.history lg2) = ["second"].
Proof.
  intros lg lg1 lg2.
  assert (H1 : Z.of_nat (length (Logger.history lg1))
               <= Z.max 0 (Logger.historyLimit lg1)) by (vm_compute; discriminate).
  split; [exact H1|]. split; [|reflexivity].
  exact (proj1 (proj2 (log_history_bounded
                         {| Logger.opt_level := None; Logger.opt_historyLimit := None;
                            Logger.opt_context := None;
                            Logger.opt_enableConsole := None |}
                         lg1 Logger.DEBUG "second" "t2" None)) H1).
Defined.

(** ** The SDK modules over the service *)

(** X26. The validation that [VerificationModule.checkStatus] and
    [WhitelistModule.checkStatus] run before they call the service is the
    one the service runs itself: for every wallet, valid or not, the module
    method returns what the service method returns and leaves the same
    state. *)
Theorem module_checkStatus_is_service_call (w : Oracle) (wallet : string)
    (this : KolcoinApiService) (h : Host) :
  VerificationModule_checkStatus w wallet this h
    = checkVerificationStatus w wallet this h
  /\ WhitelistModule_checkStatus w wallet this h
     = checkWhitelistStatus w wallet this h.
Proof.
  unfold VerificationModule_checkStatus, WhitelistModule_checkStatus,
    checkVerificationStatus, checkWhitelistStatus.
  now destruct (ApiUtils.isValidSolanaAddress wallet).
Qed.
